(** * EZLockIn: the study-timer cycle engine and its session logger

    A shallow embedding of [study_timer_gui.py]: the class [StudyLogger]
    and the class [StudyTimerLogic], together with the part of
    [StudyTimerGUI] that drives them (the menu commands and [closeEvent]).

    Conventions of the embedding.
    - Python integers are [Z]; seconds and milliseconds are kept as the
      code keeps them.
    - The object [self] of [StudyTimerLogic] is the record [Engine]; its
      methods are computations in the monad [M], which threads the engine
      and stops at the first raised exception, keeping the fields as they
      were mutated up to the raise.
    - What a method reads from the outside world comes in a record [Env]:
      the reading of [datetime.now()], the entropy consumed by
      [random.randint], and whether the append to the log file succeeds.
    - Signals and calls of [_play_sound] are recorded, in order, in the
      field [emitted], as the listeners receive them.
    - Where a Python integer is handed to Qt as a C [int] (the delay of
      [QTimer.start], the argument of the signal [time_updated]), the
      range of that type is part of the model.
    - The float written to the log is modelled by the exact rational it
      denotes. *)

From Stdlib Require Import ZArith List String Ascii Bool Lia.
From Stdlib Require Import QArith Qround Qabs Lqa DecimalString.
Import ListNotations.

Local Open Scope Z_scope.

(** ** Dates and [strftime] *)

Record datetime : Type := mk_datetime {
  year : Z; month : Z; day : Z;
  hour : Z; minute : Z; second : Z
}.

Definition str_of_Z (z : Z) : string :=
  NilZero.string_of_int (Z.to_int z).

(** Zero padding on the left up to [width] characters, as [%02d]. *)
Fixpoint zfill (missing : nat) (s : string) : string :=
  match missing with
  | O => s
  | S k => String "0"%char (zfill k s)
  end.

Definition fmt_width (width : nat) (z : Z) : string :=
  let s := str_of_Z z in
  zfill (width - String.length s) s.

Definition is_leap (y : Z) : bool :=
  ((y mod 4 =? 0) && (negb (y mod 100 =? 0) || (y mod 400 =? 0)))%bool.

Definition days_before_year (y : Z) : Z :=
  let p := y - 1 in
  p * 365 + p / 4 - p / 100 + p / 400.

Definition days_before_month (y m : Z) : Z :=
  nth (Z.to_nat m) [0; 0; 31; 59; 90; 120; 151; 181; 212; 243; 273; 304; 334] 0
  + (if ((2 <? m) && is_leap y)%bool then 1 else 0).

Definition toordinal (d : datetime) : Z :=
  days_before_year (year d) + days_before_month (year d) (month d) + day d.

(** [datetime.weekday()]: Monday is 0. *)
Definition weekday (d : datetime) : Z := (toordinal d + 6) mod 7.

Definition day_names : list string :=
  ["Monday"; "Tuesday"; "Wednesday"; "Thursday"; "Friday"; "Saturday";
   "Sunday"]%string.

(** [strftime('%A')], with the English names. *)
Definition strftime_A (d : datetime) : string :=
  nth (Z.to_nat (weekday d)) day_names ""%string.

(** [strftime('%Y-%m-%d')]. *)
Definition strftime_Ymd (d : datetime) : string :=
  (fmt_width 4 (year d) ++ "-" ++ fmt_width 2 (month d) ++ "-"
   ++ fmt_width 2 (day d))%string.

(** [strftime('%Y-%m-%d %H:%M:%S')]. *)
Definition strftime_YmdHMS (d : datetime) : string :=
  (strftime_Ymd d ++ " " ++ fmt_width 2 (hour d) ++ ":"
   ++ fmt_width 2 (minute d) ++ ":" ++ fmt_width 2 (second d))%string.

(** ** [round(x, 2)] *)

(** Rounding to the nearest integer, ties to the even one. *)
Definition round_half_even (q : Q) : Z :=
  let f := Qfloor q in
  match Qcompare (q - inject_Z f) (1 # 2) with
  | Lt => f
  | Gt => f + 1
  | Eq => if Z.even f then f else f + 1
  end.

Definition py_round2 (q : Q) : Q :=
  (inject_Z (round_half_even (q * 100)) / 100)%Q.

(** ** StudyLogger *)

(** One row of [study_log.csv], in the order of the header
    [start_time, end_time, net_duration_minutes, date, day_of_week]. *)
Record LogRecord : Type := mk_row {
  start_time : string;
  end_time : string;
  net_duration_minutes : Q;
  date : string;
  day_of_week : string
}.

(** The rows of the log file below its header. *)
Definition LogStore : Type := list LogRecord.

Definition make_row (st en : datetime) (net_duration_seconds : Z) : LogRecord :=
  let date_str := strftime_Ymd st in
  let dow := strftime_A st in
  let minutes := py_round2 (inject_Z net_duration_seconds / 60)%Q in
  mk_row (strftime_YmdHMS st) (strftime_YmdHMS en) minutes date_str dow.

(** [log_session]. [disk_ok] tells whether opening and writing the file
    succeeds; an [IOError] is caught and printed, nothing is appended.
    The method has no raising path, so it is a plain function on the
    store. *)
Definition log_session (disk_ok : bool) (st en : option datetime)
    (net_duration_seconds : Z) (store : LogStore) : LogStore :=
  match st, en with
  | Some s, Some e =>
      if 0 <? net_duration_seconds
      then if disk_ok
           then store ++ [make_row s e net_duration_seconds]
           else store
      else store
  | _, _ => store
  end.

(** ** Configuration *)

(** The numeric keys of [config.json] (all in seconds). The sound-file
    table and the music folder only feed the audio collaborator. *)
Record Config : Type := mk_config {
  study_time_min : Z;
  study_time_max : Z;
  short_break_duration : Z;
  long_break_threshold : Z;
  long_break_duration : Z;
  config_total_study_time : Z
}.

Definition DEFAULT_CONFIG : Config :=
  mk_config (3 * 60) (5 * 60) 10 (90 * 60) (20 * 60) 0.

(** ** The single-shot [QTimer] of the engine *)

(** [interval] is the delay last passed to [start]; [remaining] is the
    time left while the timer is [active]; [duration] is the dynamic
    property ["duration"], absent until [setProperty] is called. *)
Record QTimer : Type := mk_timer {
  active : bool;
  interval : Z;
  remaining : Z;
  duration : option Z
}.

Definition timer_new : QTimer := mk_timer false 0 0 None.

Definition timer_stop (t : QTimer) : QTimer :=
  mk_timer false (interval t) (remaining t) (duration t).

(** The range of a C [int]: the type of the delay of [QTimer.start] and
    of the argument of the signal [time_updated]. *)
Definition INT_MIN : Z := -2147483648.
Definition INT_MAX : Z := 2147483647.

Definition fits_int (z : Z) : bool := ((INT_MIN <=? z) && (z <=? INT_MAX))%bool.

(** The C [int] that a Python integer is cut down to when it is passed
    without a range check on the [int]: its residue modulo 2^32 in the
    range of the type. *)
Definition wrap_int (z : Z) : Z := (z - INT_MIN) mod 4294967296 + INT_MIN.

(** The interval Qt keeps for a delay: from Qt 6.10 on a negative delay is
    replaced by 1 ms (with a warning). Earlier versions left the timer
    stopped instead; the model follows Qt 6.10 and later. *)
Definition effective_interval (msec : Z) : Z := if msec <? 0 then 1 else msec.

Arguments fits_int : simpl never.
Arguments wrap_int : simpl never.
Arguments effective_interval : simpl never.

(** [QTimer.start(msec)] on a delay that is a C [int]: the timer runs
    with the interval kept for [msec]. The time left is taken to be the
    whole interval at the start (a coarse timer, which Qt may round to a
    later expiry, can report somewhat more). *)
Definition timer_start (msec : Z) (t : QTimer) : QTimer :=
  mk_timer true (effective_interval msec) (effective_interval msec) (duration t).

Definition timer_setProperty_duration (d : Z) (t : QTimer) : QTimer :=
  mk_timer (active t) (interval t) (remaining t) (Some d).

Definition isActive (t : QTimer) : bool := active t.

(** [QTimer.remainingTime()]: -1 for an inactive timer. *)
Definition remainingTime (t : QTimer) : Z :=
  if active t then remaining t else -1.

(** Time passing for [ms] milliseconds without the timer firing. *)
Definition timer_elapse (ms : Z) (t : QTimer) : QTimer :=
  if active t
  then mk_timer true (interval t) (Z.max 0 (remaining t - Z.max 0 ms)) (duration t)
  else t.

(** The timer is due: active with no time left. *)
Definition timer_due (t : QTimer) : bool := (active t && (remaining t =? 0))%bool.

(** ** Engine state *)

Inductive CycleState : Type :=
| stopped | studying | short_breaking | long_breaking | long_break_finished.

Definition CycleState_eqb (a b : CycleState) : bool :=
  match a, b with
  | stopped, stopped | studying, studying | short_breaking, short_breaking
  | long_breaking, long_breaking | long_break_finished, long_break_finished => true
  | _, _ => false
  end.

(** The string held by [current_state] in the source. *)
Definition state_name (s : CycleState) : string :=
  match s with
  | stopped => "stopped"
  | studying => "studying"
  | short_breaking => "short_breaking"
  | long_breaking => "long_breaking"
  | long_break_finished => "long_break_finished"
  end.

(** Keys of the sound table. *)
Inductive SoundKey : Type :=
| start_study | start_short_break | start_long_break | end_long_break.

(** Status texts, as UTF-8 byte strings. *)
Definition nl : string := String (ascii_of_nat 10) EmptyString.

Definition text_idle : string := ("EZLockIn" ++ nl ++ "Right-click to Start")%string.
Definition text_studying (round : Z) : string :=
  ("📚 Studying..." ++ nl ++ "(Round " ++ str_of_Z round ++ ")")%string.
Definition text_short_break : string := "☕ Short Break..."%string.
Definition text_long_break : string := "🧘 Long Break..."%string.
Definition text_paused : string := "⏸️ Paused"%string.
Definition text_long_break_ended : string :=
  ("🎉 Long Break Ended" ++ nl ++ "Right-click to start a new cycle")%string.

(** What the engine sends out, as it is received: the three Qt signals,
    and the calls of [_play_sound] (the request handed to the audio
    collaborator). The signal [time_updated] is a [pyqtSignal(int)]: its
    argument arrives as a C [int]. *)
Inductive Emission : Type :=
| state_changed (text : string) (state : CycleState)
| time_updated (total : Z)
| notification_requested (title message : string)
| play_sound (key : SoundKey).

Record Engine : Type := mk_engine {
  config : Config;
  logger : LogStore;
  is_paused : bool;
  time_remaining_on_pause : Z;
  timer : QTimer;
  total_study_time : Z;
  current_cycle_study_time : Z;
  current_session_start_time : option datetime;
  current_session_duration : Z;
  cycle_count : Z;
  current_state : CycleState;
  emitted : list Emission
}.

(** Readings of the outside world during one call. *)
Record Env : Type := mk_env {
  now : datetime;
  entropy : Z;
  disk_ok : bool
}.

(** ** The monad of engine methods *)

Inductive exn : Type := ValueError | TypeError | OverflowError.

Definition M (A : Type) : Type := Engine -> (exn + A) * Engine.

Definition ret {A} (a : A) : M A := fun s => (inr a, s).

Definition bind {A B} (m : M A) (k : A -> M B) : M B :=
  fun s => match m s with
           | (inr a, s') => k a s'
           | (inl e, s') => (inl e, s')
           end.

Definition raise {A} (e : exn) : M A := fun s => (inl e, s).
Definition get {A} (f : Engine -> A) : M A := fun s => (inr (f s), s).
Definition modify (f : Engine -> Engine) : M unit := fun s => (inr tt, f s).

Declare Scope engine_scope.
Delimit Scope engine_scope with engine.
Notation "x <- m ;; k" := (bind m (fun x => k))
  (at level 61, m at next level, right associativity) : engine_scope.
Notation "m ;; k" := (bind m (fun _ => k))
  (at level 61, right associativity) : engine_scope.
Local Open Scope engine_scope.

(** Field assignments [self.f = v]. *)
Definition set_logger v : M unit := modify (fun s =>
  mk_engine (config s) v (is_paused s) (time_remaining_on_pause s) (timer s)
    (total_study_time s) (current_cycle_study_time s)
    (current_session_start_time s) (current_session_duration s)
    (cycle_count s) (current_state s) (emitted s)).
Definition set_is_paused v : M unit := modify (fun s =>
  mk_engine (config s) (logger s) v (time_remaining_on_pause s) (timer s)
    (total_study_time s) (current_cycle_study_time s)
    (current_session_start_time s) (current_session_duration s)
    (cycle_count s) (current_state s) (emitted s)).
Definition set_time_remaining_on_pause v : M unit := modify (fun s =>
  mk_engine (config s) (logger s) (is_paused s) v (timer s)
    (total_study_time s) (current_cycle_study_time s)
    (current_session_start_time s) (current_session_duration s)
    (cycle_count s) (current_state s) (emitted s)).
Definition set_timer v : M unit := modify (fun s =>
  mk_engine (config s) (logger s) (is_paused s) (time_remaining_on_pause s) v
    (total_study_time s) (current_cycle_study_time s)
    (current_session_start_time s) (current_session_duration s)
    (cycle_count s) (current_state s) (emitted s)).
Definition set_total_study_time v : M unit := modify (fun s =>
  mk_engine (config s) (logger s) (is_paused s) (time_remaining_on_pause s)
    (timer s) v (current_cycle_study_time s)
    (current_session_start_time s) (current_session_duration s)
    (cycle_count s) (current_state s) (emitted s)).
Definition set_current_cycle_study_time v : M unit := modify (fun s =>
  mk_engine (config s) (logger s) (is_paused s) (time_remaining_on_pause s)
    (timer s) (total_study_time s) v
    (current_session_start_time s) (current_session_duration s)
    (cycle_count s) (current_state s) (emitted s)).
Definition set_current_session_start_time v : M unit := modify (fun s =>
  mk_engine (config s) (logger s) (is_paused s) (time_remaining_on_pause s)
    (timer s) (total_study_time s) (current_cycle_study_time s)
    v (current_session_duration s)
    (cycle_count s) (current_state s) (emitted s)).
Definition set_current_session_duration v : M unit := modify (fun s =>
  mk_engine (config s) (logger s) (is_paused s) (time_remaining_on_pause s)
    (timer s) (total_study_time s) (current_cycle_study_time s)
    (current_session_start_time s) v
    (cycle_count s) (current_state s) (emitted s)).
Definition set_cycle_count v : M unit := modify (fun s =>
  mk_engine (config s) (logger s) (is_paused s) (time_remaining_on_pause s)
    (timer s) (total_study_time s) (current_cycle_study_time s)
    (current_session_start_time s) (current_session_duration s)
    v (current_state s) (emitted s)).
Definition set_current_state v : M unit := modify (fun s =>
  mk_engine (config s) (logger s) (is_paused s) (time_remaining_on_pause s)
    (timer s) (total_study_time s) (current_cycle_study_time s)
    (current_session_start_time s) (current_session_duration s)
    (cycle_count s) v (emitted s)).

(** What the listeners receive of an emission: the total of
    [time_updated] goes through a C [int], which cuts down a value out of
    its range; the strings of the other signals arrive as they are. The
    properties that speak of the total received are stated for totals
    that are C [int]s, which arrive as they are. *)
Definition delivered (e : Emission) : Emission :=
  match e with
  | time_updated total => time_updated (wrap_int total)
  | _ => e
  end.

(** [signal.emit(...)] and [_play_sound(key)]: appended to the record of
    what was sent out. *)
Definition emit (e : Emission) : M unit := modify (fun s =>
  mk_engine (config s) (logger s) (is_paused s) (time_remaining_on_pause s)
    (timer s) (total_study_time s) (current_cycle_study_time s)
    (current_session_start_time s) (current_session_duration s)
    (cycle_count s) (current_state s) (emitted s ++ [delivered e])).

Definition _play_sound (key : SoundKey) : M unit := emit (play_sound key).

Definition on_timer (f : QTimer -> QTimer) : M unit :=
  t <- get timer ;; set_timer (f t).

(** [self.timer.start(msec)] on a delay computed in Python: PyQt converts
    the argument to a C [int] and raises [OverflowError] when it does not
    fit; the timer is then left as it was. *)
Definition timer_start_call (msec : Z) : M unit :=
  if fits_int msec then on_timer (timer_start msec) else raise OverflowError.

(** [random.randint(a, b)]: an integer of [a..b], both ends included;
    [ValueError] on an empty range. Every value of the range is reached by
    some entropy. *)
Definition randint (a b : Z) (e : Env) : M Z :=
  if a <=? b then ret (a + entropy e mod (b - a + 1)) else raise ValueError.

(** ** StudyTimerLogic *)

Definition _clear_current_session : M unit :=
  set_current_session_start_time None ;;
  set_current_session_duration 0.

Definition reset_cycle : M unit :=
  on_timer timer_stop ;;
  set_cycle_count 0 ;;
  set_current_state stopped ;;
  set_is_paused false ;;
  _clear_current_session ;;
  set_current_cycle_study_time 0 ;;
  st <- get current_state ;;
  emit (state_changed text_idle st) ;;
  total <- get total_study_time ;;
  emit (time_updated total).

Definition reset_all : M unit :=
  set_total_study_time 0 ;;
  reset_cycle ;;
  total <- get total_study_time ;;
  emit (time_updated total).

Definition _run_short_break_cycle : M unit :=
  set_current_state short_breaking ;;
  break_duration <- get (fun s => short_break_duration (config s)) ;;
  st <- get current_state ;;
  emit (state_changed text_short_break st) ;;
  total <- get total_study_time ;;
  emit (time_updated total) ;;
  _play_sound start_short_break ;;
  on_timer (timer_setProperty_duration 0) ;;
  timer_start_call (break_duration * 1000).

Definition _run_long_break_cycle : M unit :=
  set_current_state long_breaking ;;
  break_duration <- get (fun s => long_break_duration (config s)) ;;
  st <- get current_state ;;
  emit (state_changed text_long_break st) ;;
  total <- get total_study_time ;;
  emit (time_updated total) ;;
  _play_sound start_long_break ;;
  set_current_cycle_study_time 0 ;;
  on_timer (timer_setProperty_duration 0) ;;
  timer_start_call (break_duration * 1000).

Definition _run_study_cycle (e : Env) : M unit :=
  n <- get cycle_count ;;
  set_cycle_count (n + 1) ;;
  set_current_state studying ;;
  lo <- get (fun s => study_time_min (config s)) ;;
  hi <- get (fun s => study_time_max (config s)) ;;
  study_duration <- randint lo hi e ;;
  set_current_session_start_time (Some (now e)) ;;
  set_current_session_duration study_duration ;;
  n <- get cycle_count ;;
  st <- get current_state ;;
  emit (state_changed (text_studying n) st) ;;
  _play_sound start_study ;;
  on_timer (timer_setProperty_duration study_duration) ;;
  timer_start_call (study_duration * 1000).

(** [self.logger.log_session(...)] on the engine's logger. *)
Definition logger_log_session (e : Env) (st en : option datetime) (n : Z) : M unit :=
  store <- get logger ;;
  set_logger (log_session (disk_ok e) st en n store).

Definition on_timer_timeout (e : Env) : M unit :=
  st <- get current_state ;;
  match st with
  | studying =>
      start <- get current_session_start_time ;;
      planned <- get current_session_duration ;;
      (match start with
       | Some _ =>
           if 0 <? planned
           then logger_log_session e start (Some (now e)) planned
           else ret tt
       | None => ret tt
       end) ;;
      _clear_current_session ;;
      prop <- get (fun s => duration (timer s)) ;;
      match prop with
      | Some study_duration =>
          total <- get total_study_time ;;
          set_total_study_time (total + study_duration) ;;
          cyc <- get current_cycle_study_time ;;
          set_current_cycle_study_time (cyc + study_duration) ;;
          _run_short_break_cycle
      | None => raise TypeError
      end
  | short_breaking =>
      cyc <- get current_cycle_study_time ;;
      thr <- get (fun s => long_break_threshold (config s)) ;;
      if thr <=? cyc then _run_long_break_cycle else _run_study_cycle e
  | long_breaking =>
      _play_sound end_long_break ;;
      set_current_state long_break_finished ;;
      st' <- get current_state ;;
      emit (state_changed text_long_break_ended st') ;;
      emit (notification_requested "Break Finished" "Ready to start the next session?")
  | _ => ret tt
  end.

Definition load_persistent_time (total : Z) : M unit :=
  set_total_study_time total ;;
  t <- get total_study_time ;;
  emit (time_updated t).

Definition pause : M unit :=
  t <- get timer ;;
  if isActive t
  then
    set_time_remaining_on_pause (remainingTime t) ;;
    on_timer timer_stop ;;
    set_is_paused true ;;
    st <- get current_state ;;
    emit (state_changed text_paused st)
  else ret tt.

(** The text looked up by [_resume] in its table, ["Unknown"] outside it. *)
Definition original_state_text (st : CycleState) (round : Z) : string :=
  match st with
  | studying => text_studying round
  | short_breaking => text_short_break
  | long_breaking => text_long_break
  | _ => "Unknown"%string
  end.

(** The delay of [_resume] is the C [int] that [remainingTime()] gave to
    [pause]: its conversion cannot fail. *)
Definition _resume : M unit :=
  p <- get is_paused ;;
  if p : bool
  then
    r <- get time_remaining_on_pause ;;
    on_timer (timer_start r) ;;
    set_is_paused false ;;
    _play_sound start_study ;;
    st <- get current_state ;;
    n <- get cycle_count ;;
    emit (state_changed (original_state_text st n) st)
  else ret tt.

Definition start_or_resume (e : Env) : M unit :=
  p <- get is_paused ;;
  st <- get current_state ;;
  if p : bool then _resume
  else
    match st with
    | stopped | long_break_finished =>
        set_is_paused false ;;
        (match st with
         | long_break_finished => reset_cycle
         | _ => ret tt
         end) ;;
        cyc <- get current_cycle_study_time ;;
        thr <- get (fun s => long_break_threshold (config s)) ;;
        if thr <=? cyc then _run_long_break_cycle else _run_study_cycle e
    | _ => ret tt
    end.

(** [stop]: the timer is stopped (and the mixer shut down). *)
Definition stop : M unit := on_timer timer_stop.

(** [StudyTimerLogic.__init__] on a loaded configuration: the fields are
    set, then [reset_cycle] runs. *)
Definition constructed (cfg : Config) : Engine :=
  mk_engine cfg [] false 0 timer_new (config_total_study_time cfg) 0 None 0 0
    stopped [].

Definition init (cfg : Config) : Engine := snd (reset_cycle (constructed cfg)).

(** ** The driver: [StudyTimerGUI] and the Qt event loop *)

(** [closeEvent]: the in-progress session is dropped, the total is written
    into the configuration (the dictionary the engine holds too), and the
    engine is stopped. The application quits afterwards. *)
Definition closeEvent : M unit :=
  _clear_current_session ;;
  total <- get total_study_time ;;
  modify (fun s =>
    let c := config s in
    mk_engine (mk_config (study_time_min c) (study_time_max c)
                 (short_break_duration c) (long_break_threshold c)
                 (long_break_duration c) total)
      (logger s) (is_paused s) (time_remaining_on_pause s) (timer s)
      (total_study_time s) (current_cycle_study_time s)
      (current_session_start_time s) (current_session_duration s)
      (cycle_count s) (current_state s) (emitted s)) ;;
  stop.

(** What can happen to a running engine: the four menu commands, time
    passing, and the phase timer firing. The engine accepts the commands
    in any state (the menu greys some of them out; the engine does not
    rely on it). *)
Inductive Event : Type :=
| ev_start_or_resume (e : Env)
| ev_pause
| ev_reset_cycle
| ev_reset_all
| ev_elapse (ms : Z)
| ev_timeout (e : Env).

(** A single-shot timer becomes inactive when it fires, then its slot
    runs. A timeout that is not due does not happen. *)
Definition fire (e : Env) : M unit :=
  t <- get timer ;;
  if timer_due t
  then on_timer timer_stop ;; on_timer_timeout e
  else ret tt.

Definition dispatch (ev : Event) : M unit :=
  match ev with
  | ev_start_or_resume e => start_or_resume e
  | ev_pause => pause
  | ev_reset_cycle => reset_cycle
  | ev_reset_all => reset_all
  | ev_elapse ms => on_timer (timer_elapse ms)
  | ev_timeout e => fire e
  end.

Fixpoint run (evs : list Event) : M unit :=
  match evs with
  | [] => ret tt
  | ev :: rest => dispatch ev ;; run rest
  end.

(** The engine after [evs], when no call raised. *)
Definition after (cfg : Config) (evs : list Event) (s : Engine) : Prop :=
  run evs (init cfg) = (inr tt, s).

(** States of the engine in the runs of the application. *)
Inductive reachable (cfg : Config) : Engine -> Prop :=
| reach_init : reachable cfg (init cfg)
| reach_step s ev s' :
    reachable cfg s -> dispatch ev s = (inr tt, s') -> reachable cfg s'.

(** * Vocabulary of the properties *)

(** ** The states the methods lead to

    Each method leaves the engine in a state that is written out here as
    a record; the equations of the next part relate the methods to these
    states. *)

(** The value drawn by [randint] on a non-empty range. *)
Definition drawn (cfg : Config) (e : Env) : Z :=
  study_time_min cfg + entropy e mod (study_time_max cfg - study_time_min cfg + 1).

(** After [_run_study_cycle], [_run_short_break_cycle] and
    [_run_long_break_cycle]. *)
Definition entered_study (e : Env) (s : Engine) : Engine :=
  let d := drawn (config s) e in
  mk_engine (config s) (logger s) (is_paused s) (time_remaining_on_pause s)
    (timer_start (d * 1000) (timer_setProperty_duration d (timer s)))
    (total_study_time s) (current_cycle_study_time s)
    (Some (now e)) d (cycle_count s + 1) studying
    ((emitted s ++ [state_changed (text_studying (cycle_count s + 1)) studying])
       ++ [play_sound start_study]).

Definition entered_short_break (s : Engine) : Engine :=
  let b := short_break_duration (config s) * 1000 in
  mk_engine (config s) (logger s) (is_paused s) (time_remaining_on_pause s)
    (timer_start b (timer_setProperty_duration 0 (timer s)))
    (total_study_time s) (current_cycle_study_time s)
    (current_session_start_time s) (current_session_duration s)
    (cycle_count s) short_breaking
    (((emitted s ++ [state_changed text_short_break short_breaking])
        ++ [time_updated (wrap_int (total_study_time s))])
       ++ [play_sound start_short_break]).

Definition entered_long_break (s : Engine) : Engine :=
  let b := long_break_duration (config s) * 1000 in
  mk_engine (config s) (logger s) (is_paused s) (time_remaining_on_pause s)
    (timer_start b (timer_setProperty_duration 0 (timer s)))
    (total_study_time s) 0
    (current_session_start_time s) (current_session_duration s)
    (cycle_count s) long_breaking
    (((emitted s ++ [state_changed text_long_break long_breaking])
        ++ [time_updated (wrap_int (total_study_time s))])
       ++ [play_sound start_long_break]).

(** The engine when [timer.start] has raised [OverflowError] in one of
    the three methods: everything is done but the start of the timer. *)
Definition study_not_started (e : Env) (s : Engine) : Engine :=
  let d := drawn (config s) e in
  mk_engine (config s) (logger s) (is_paused s) (time_remaining_on_pause s)
    (timer_setProperty_duration d (timer s))
    (total_study_time s) (current_cycle_study_time s)
    (Some (now e)) d (cycle_count s + 1) studying
    ((emitted s ++ [state_changed (text_studying (cycle_count s + 1)) studying])
       ++ [play_sound start_study]).

Definition short_break_not_started (s : Engine) : Engine :=
  mk_engine (config s) (logger s) (is_paused s) (time_remaining_on_pause s)
    (timer_setProperty_duration 0 (timer s))
    (total_study_time s) (current_cycle_study_time s)
    (current_session_start_time s) (current_session_duration s)
    (cycle_count s) short_breaking
    (((emitted s ++ [state_changed text_short_break short_breaking])
        ++ [time_updated (wrap_int (total_study_time s))])
       ++ [play_sound start_short_break]).

Definition long_break_not_started (s : Engine) : Engine :=
  mk_engine (config s) (logger s) (is_paused s) (time_remaining_on_pause s)
    (timer_setProperty_duration 0 (timer s))
    (total_study_time s) 0
    (current_session_start_time s) (current_session_duration s)
    (cycle_count s) long_breaking
    (((emitted s ++ [state_changed text_long_break long_breaking])
        ++ [time_updated (wrap_int (total_study_time s))])
       ++ [play_sound start_long_break]).

(** After [reset_cycle] and [reset_all]. *)
Definition was_reset (s : Engine) : Engine :=
  mk_engine (config s) (logger s) false (time_remaining_on_pause s)
    (timer_stop (timer s)) (total_study_time s) 0 None 0 0 stopped
    ((emitted s ++ [state_changed text_idle stopped])
       ++ [time_updated (wrap_int (total_study_time s))]).

Definition was_reset_all (s : Engine) : Engine :=
  mk_engine (config s) (logger s) false (time_remaining_on_pause s)
    (timer_stop (timer s)) 0 0 None 0 0 stopped
    (((emitted s ++ [state_changed text_idle stopped])
        ++ [time_updated (wrap_int 0)]) ++ [time_updated (wrap_int 0)]).

(** After [ms] milliseconds of waiting. *)
Definition elapsed (ms : Z) (s : Engine) : Engine :=
  mk_engine (config s) (logger s) (is_paused s) (time_remaining_on_pause s)
    (timer_elapse ms (timer s)) (total_study_time s)
    (current_cycle_study_time s) (current_session_start_time s)
    (current_session_duration s) (cycle_count s) (current_state s) (emitted s).

(** After [pause] with the timer running, and after [_resume]. *)
Definition paused_from (s : Engine) : Engine :=
  mk_engine (config s) (logger s) true (remaining (timer s))
    (timer_stop (timer s)) (total_study_time s) (current_cycle_study_time s)
    (current_session_start_time s) (current_session_duration s)
    (cycle_count s) (current_state s)
    (emitted s ++ [state_changed text_paused (current_state s)]).

Definition resumed (s : Engine) : Engine :=
  mk_engine (config s) (logger s) false (time_remaining_on_pause s)
    (timer_start (time_remaining_on_pause s) (timer s))
    (total_study_time s) (current_cycle_study_time s)
    (current_session_start_time s) (current_session_duration s)
    (cycle_count s) (current_state s)
    ((emitted s ++ [play_sound start_study])
       ++ [state_changed (original_state_text (current_state s) (cycle_count s))
             (current_state s)]).

(** The engine when a study interval has run to its end: the row is
    logged, the session cleared, the time credited. *)
Definition study_credited (e : Env) (d : Z) (s : Engine) : Engine :=
  mk_engine (config s)
    (match current_session_start_time s with
     | Some _ =>
         if 0 <? current_session_duration s
         then log_session (disk_ok e) (current_session_start_time s)
                (Some (now e)) (current_session_duration s) (logger s)
         else logger s
     | None => logger s
     end)
    (is_paused s) (time_remaining_on_pause s) (timer s)
    (total_study_time s + d) (current_cycle_study_time s + d)
    None 0 (cycle_count s) (current_state s) (emitted s).

(** After the timeout of the long break. *)
Definition long_break_ended (s : Engine) : Engine :=
  mk_engine (config s) (logger s) (is_paused s) (time_remaining_on_pause s)
    (timer s) (total_study_time s) (current_cycle_study_time s)
    (current_session_start_time s) (current_session_duration s)
    (cycle_count s) long_break_finished
    (((emitted s ++ [play_sound end_long_break])
        ++ [state_changed text_long_break_ended long_break_finished])
       ++ [notification_requested "Break Finished"
             "Ready to start the next session?"]).

(** The engine with its timer just fired. *)
Definition fired (s : Engine) : Engine :=
  mk_engine (config s) (logger s) (is_paused s) (time_remaining_on_pause s)
    (timer_stop (timer s)) (total_study_time s) (current_cycle_study_time s)
    (current_session_start_time s) (current_session_duration s)
    (cycle_count s) (current_state s) (emitted s).

(** ** The invariant of the reachable states *)

(** A phase with a timer: studying or one of the breaks. *)
Definition in_phase (st : CycleState) : Prop :=
  st = studying \/ st = short_breaking \/ st = long_breaking.

Record Inv (cfg : Config) (s : Engine) : Prop := mk_Inv {
  inv_config : config s = cfg;
  inv_remaining : active (timer s) = true -> 0 <= remaining (timer s);
  inv_running :
    active (timer s) = true ->
    is_paused s = false /\ in_phase (current_state s);
  inv_paused :
    is_paused s = true ->
    0 <= time_remaining_on_pause s /\ in_phase (current_state s);
  inv_cycle_zero :
    current_state s = stopped \/ current_state s = long_breaking
    \/ current_state s = long_break_finished ->
    current_cycle_study_time s = 0;
  inv_session :
    current_state s = studying ->
    exists d t0,
      current_session_start_time s = Some t0
      /\ current_session_duration s = d
      /\ duration (timer s) = Some d
      /\ study_time_min cfg <= d <= study_time_max cfg
}.

(** ** The steps of the engine, as a relation

    Every call dispatched on a reachable state has one of the shapes
    of [step]; the properties of single steps are read off this relation. *)

(** The choice between a long break and a new study round, run on [s0]. *)
Inductive chosen (e : Env) (s0 : Engine) : exn + unit -> Engine -> Prop :=
| chose_long_break :
    long_break_threshold (config s0) <= current_cycle_study_time s0 ->
    fits_int (long_break_duration (config s0) * 1000) = true ->
    chosen e s0 (inr tt) (entered_long_break s0)
| chose_long_break_overflow :
    long_break_threshold (config s0) <= current_cycle_study_time s0 ->
    fits_int (long_break_duration (config s0) * 1000) = false ->
    chosen e s0 (inl OverflowError) (long_break_not_started s0)
| chose_study :
    current_cycle_study_time s0 < long_break_threshold (config s0) ->
    study_time_min (config s0) <= study_time_max (config s0) ->
    fits_int (drawn (config s0) e * 1000) = true ->
    chosen e s0 (inr tt) (entered_study e s0)
| chose_study_overflow :
    current_cycle_study_time s0 < long_break_threshold (config s0) ->
    study_time_min (config s0) <= study_time_max (config s0) ->
    fits_int (drawn (config s0) e * 1000) = false ->
    chosen e s0 (inl OverflowError) (study_not_started e s0)
| chose_empty_range s' :
    current_cycle_study_time s0 < long_break_threshold (config s0) ->
    study_time_max (config s0) < study_time_min (config s0) ->
    logger s' = logger s0 -> total_study_time s' = total_study_time s0 ->
    chosen e s0 (inl ValueError) s'.

Inductive step (s : Engine) : Event -> exn + unit -> Engine -> Prop :=
| step_resume e :
    is_paused s = true ->
    step s (ev_start_or_resume e) (inr tt) (resumed s)
| step_start e r s' :
    is_paused s = false -> current_state s = stopped -> chosen e s r s' ->
    step s (ev_start_or_resume e) r s'
| step_restart e r s' :
    is_paused s = false -> current_state s = long_break_finished ->
    chosen e (was_reset s) r s' ->
    step s (ev_start_or_resume e) r s'
| step_start_running e :
    is_paused s = false -> in_phase (current_state s) ->
    step s (ev_start_or_resume e) (inr tt) s
| step_pause :
    active (timer s) = true -> step s ev_pause (inr tt) (paused_from s)
| step_pause_idle :
    active (timer s) = false -> step s ev_pause (inr tt) s
| step_reset_cycle : step s ev_reset_cycle (inr tt) (was_reset s)
| step_reset_all : step s ev_reset_all (inr tt) (was_reset_all s)
| step_elapse ms : step s (ev_elapse ms) (inr tt) (elapsed ms s)
| step_not_due e :
    timer_due (timer s) = false -> step s (ev_timeout e) (inr tt) s
| step_study_done e d t0 :
    timer_due (timer s) = true -> current_state s = studying ->
    current_session_start_time s = Some t0 ->
    current_session_duration s = d -> duration (timer s) = Some d ->
    study_time_min (config s) <= d <= study_time_max (config s) ->
    fits_int (short_break_duration (config s) * 1000) = true ->
    step s (ev_timeout e) (inr tt)
      (entered_short_break (study_credited e d (fired s)))
| step_study_done_overflow e d t0 :
    timer_due (timer s) = true -> current_state s = studying ->
    current_session_start_time s = Some t0 ->
    current_session_duration s = d -> duration (timer s) = Some d ->
    study_time_min (config s) <= d <= study_time_max (config s) ->
    fits_int (short_break_duration (config s) * 1000) = false ->
    step s (ev_timeout e) (inl OverflowError)
      (short_break_not_started (study_credited e d (fired s)))
| step_short_break_done e r s' :
    timer_due (timer s) = true -> current_state s = short_breaking ->
    is_paused s = false ->
    chosen e (fired s) r s' ->
    step s (ev_timeout e) r s'
| step_long_break_done e :
    timer_due (timer s) = true -> current_state s = long_breaking ->
    step s (ev_timeout e) (inr tt) (long_break_ended (fired s)).

(** ** Sample engines

    Concrete configurations and engines, each obtained by running the
    model from [init]; they serve as inputs of the examples. *)

Definition noon : datetime := mk_datetime 2026 11 3 12 0 0.

Definition studying_engine : Engine :=
  Eval vm_compute in
    snd (run [ev_start_or_resume (mk_env noon 1000 true); ev_elapse 2000]
           (init DEFAULT_CONFIG)).

(** Readings at noon, with random source [r] and a writable file. *)
Definition at_noon (r : Z) : Env := mk_env noon r true.

(** Study 5 s, short break 2 s, long break 3 s at a threshold of 8 s. *)
Definition scenario_config : Config := mk_config 5 5 2 8 3 0.

(** The engine in its second short break, 10 s studied in the cycle, the
    break timer due. *)
Definition second_break_due : Engine :=
  Eval vm_compute in
    snd (run [ev_start_or_resume (at_noon 0); ev_elapse 5000; ev_timeout (at_noon 1);
              ev_elapse 2000; ev_timeout (at_noon 2); ev_elapse 5000;
              ev_timeout (at_noon 3); ev_elapse 2000]
           (init scenario_config)).

Definition long_break_begun : Engine :=
  Eval vm_compute in snd (dispatch (ev_timeout (at_noon 4)) second_break_due).

(** The engine in its second study round, 1 s in, with 5 s on the total. *)
Definition second_round : Engine :=
  Eval vm_compute in
    snd (run [ev_start_or_resume (at_noon 0); ev_elapse 5000; ev_timeout (at_noon 1);
              ev_elapse 2000; ev_timeout (at_noon 2); ev_elapse 1000]
           (init scenario_config)).

(** The engine with its first study round due. *)
Definition first_round_due : Engine :=
  Eval vm_compute in
    snd (run [ev_start_or_resume (at_noon 0); ev_elapse 5000]
           (init scenario_config)).

Definition first_break : Engine :=
  Eval vm_compute in snd (dispatch (ev_timeout (at_noon 1)) first_round_due).

(** ** Statements and observations *)

(** Study rounds of 2147484 s, whose delay in milliseconds is above the
    largest C [int]; and study rounds of -1 s. *)
Definition long_round_config : Config := mk_config 2147484 2147484 10 5400 1200 0.
Definition negative_round_config : Config := mk_config (-1) (-1) 10 5400 1200 0.

(** On a range that is not empty the study round begins, and the
    duration drawn lies in the range and is the planned duration of the
    session and, in milliseconds, the delay the timer runs with: the
    statement that a delay above the largest C [int], and a negative one,
    break. *)
Definition drawn_duration_is_timer_delay (cfg : Config) : Prop :=
  study_time_min cfg <= study_time_max cfg ->
  forall e, exists d s',
    _run_study_cycle e (init cfg) = (inr tt, s')
    /\ study_time_min cfg <= d <= study_time_max cfg
    /\ current_session_duration s' = d
    /\ active (timer s') = true
    /\ interval (timer s') = d * 1000.

(** The total never goes down, and a round aborted by a reset leaves it
    alone: the statement that [reset_all] breaks. *)
Definition total_only_increases (cfg : Config) : Prop :=
  forall s ev s',
    reachable cfg s -> dispatch ev s = (inr tt, s') ->
    total_study_time s <= total_study_time s'.

(** A study round runs to its end on this event. *)
Definition completes (ev : Event) (s : Engine) : bool :=
  match ev with
  | ev_timeout _ =>
      timer_due (timer s) && CycleState_eqb (current_state s) studying
  | _ => false
  end.

(** A configuration whose study rounds last 0 s. *)
Definition zero_config : Config := mk_config 0 0 2 8 3 0.

Definition zero_round_due : Engine :=
  Eval vm_compute in
    snd (run [ev_start_or_resume (at_noon 0)] (init zero_config)).

(** Every study round that runs to its end is logged (the file being
    writable): the statement that a round of 0 s breaks. *)
Definition completed_round_is_logged (cfg : Config) : Prop :=
  forall s e s',
    reachable cfg s -> disk_ok e = true ->
    completes (ev_timeout e) s = true ->
    dispatch (ev_timeout e) s = (inr tt, s') ->
    exists row, logger s' = logger s ++ [row].

(** The event appends a row: a round runs to its end, its planned
    duration is positive and the file is writable. *)
Definition logs_a_row (ev : Event) (s : Engine) : bool :=
  match ev with
  | ev_timeout e =>
      completes ev s && (0 <? current_session_duration s) && disk_ok e
  | _ => false
  end.

(** The cue each phase plays when it is entered ([_run_study_cycle],
    [_run_short_break_cycle], [_run_long_break_cycle]). *)
Definition phase_cue (st : CycleState) : option SoundKey :=
  match st with
  | studying => Some start_study
  | short_breaking => Some start_short_break
  | long_breaking => Some start_long_break
  | _ => None
  end.

Fixpoint cues (l : list Emission) : list SoundKey :=
  match l with
  | [] => []
  | play_sound k :: rest => k :: cues rest
  | _ :: rest => cues rest
  end.

(** Resuming replays the cue of the resumed phase: the statement that a
    paused break refutes. *)
Definition resume_replays_phase_cue (cfg : Config) : Prop :=
  forall s e s',
    reachable cfg s -> is_paused s = true ->
    start_or_resume e s = (inr tt, s') ->
    exists k, phase_cue (current_state s) = Some k
              /\ cues (emitted s') = cues (emitted s) ++ [k].

(** The engine paused 1 s into its first short break. *)
Definition paused_short_break : Engine :=
  Eval vm_compute in
    snd (run [ev_start_or_resume (at_noon 0); ev_elapse 5000; ev_timeout (at_noon 1);
              ev_elapse 1000; ev_pause]
           (init scenario_config)).

(** What is looked at after each event: the phase, the delay the timer
    was last started with (ms), the study time of the cycle, the total,
    and the minutes of the rows logged so far. *)
Definition observation : Type := (CycleState * Z * Z * Z * list Q)%type.

Definition observe (s : Engine) : observation :=
  (current_state s, interval (timer s), current_cycle_study_time s,
   total_study_time s, map net_duration_minutes (logger s)).

Fixpoint trace (evs : list Event) (s : Engine) : list observation :=
  match evs with
  | [] => []
  | ev :: rest =>
      match dispatch ev s with
      | (inr _, s') => observe s' :: trace rest s'
      | (inl _, _) => []
      end
  end.

(** The phases gone through, one entry per change of phase. *)
Fixpoint phases_from (prev : CycleState) (obs : list observation)
  : list CycleState :=
  match obs with
  | [] => []
  | (st, _, _, _, _) :: rest =>
      if CycleState_eqb st prev then phases_from prev rest
      else st :: phases_from st rest
  end.

(** Start, then let every timer run out and fire, six times over. The
    clock readings and the random source are arbitrary; the file is
    writable. *)
Definition scenario_events (clock : nat -> datetime) (dice : nat -> Z)
  : list Event :=
  let env i := mk_env (clock i) (dice i) true in
  [ev_start_or_resume (env 0%nat);
   ev_elapse 5000; ev_timeout (env 1%nat);
   ev_elapse 2000; ev_timeout (env 2%nat);
   ev_elapse 5000; ev_timeout (env 3%nat);
   ev_elapse 2000; ev_timeout (env 4%nat);
   ev_elapse 3000; ev_timeout (env 5%nat)].

(** With [study_time_min = study_time_max] the random source has no say. *)
Definition calm (e : Env) : Env := mk_env (now e) 0 (disk_ok e).

Definition calm_event (ev : Event) : Event :=
  match ev with
  | ev_start_or_resume e => ev_start_or_resume (calm e)
  | ev_timeout e => ev_timeout (calm e)
  | _ => ev
  end.

(** The phases the scenario is said to go through: a long break right
    after the second study round. *)
Definition claimed_phases : list CycleState :=
  [studying; short_breaking; studying; long_breaking; long_break_finished].

Definition scenario_trace : list observation :=
  Eval vm_compute in
    trace (scenario_events (fun _ => noon) (fun _ => 0)) (init scenario_config).

(** * The menu and the labels of [StudyTimerGUI] *)

(** [str.replace(a, b)] on single characters. *)
Fixpoint replace_char (a b : ascii) (s : string) : string :=
  match s with
  | EmptyString => EmptyString
  | String c rest =>
      String (if Ascii.eqb c a then b else c) (replace_char a b rest)
  end.

(** [divmod(x, 60)]. *)
Definition divmod60 (x : Z) : Z * Z := (x / 60, x mod 60).

(** [update_total_time]: the text of the total-time label. *)
Definition total_focus_hours (total_seconds : Z) : Z := total_seconds / 3600.
Definition total_focus_minutes (total_seconds : Z) : Z :=
  (total_seconds / 60) mod 60.

Definition update_total_time (total_seconds : Z) : string :=
  ("Total focus: " ++ str_of_Z (total_focus_hours total_seconds) ++ "h "
   ++ str_of_Z (total_focus_minutes total_seconds) ++ "m")%string.

(** The line of [populate_context_menu] on the long break to come. *)
Inductive LongBreakStatus : Type :=
| long_break_in (mins : Z)
| long_break_available.

Definition long_break_status_text (st : LongBreakStatus) : string :=
  match st with
  | long_break_in mins =>
      ("🎯 Long Break in ~" ++ str_of_Z mins ++ "m")%string
  | long_break_available => "🎉 Long Break Available"%string
  end.

(** What [populate_context_menu] puts in the menu from the engine: the
    minutes and seconds of the info line (absent when no phase is under
    way), the long-break line (absent when stopped), and whether the two
    timer actions are enabled. *)
Record Menu : Type := mk_menu {
  info_remaining : option (Z * Z);
  info_text : option string;
  long_break_line : option LongBreakStatus;
  start_enabled : bool;
  pause_enabled : bool
}.

Definition populate_context_menu (s : Engine) : Menu :=
  let t := timer s in
  let info :=
    if (isActive t || is_paused s)%bool
    then
      let remaining_ms :=
        if is_paused s then time_remaining_on_pause s else remainingTime t in
      Some (divmod60 (remaining_ms / 1000))
    else None in
  let text :=
    match info with
    | Some (mins, secs) =>
        Some ("⏳ " ++ replace_char "_" " " (state_name (current_state s))
              ++ ": " ++ str_of_Z mins ++ "m " ++ str_of_Z secs ++ "s")%string
    | None => None
    end in
  let line :=
    match current_state s with
    | stopped => None
    | _ =>
        let long_break_threshold := long_break_threshold (config s) in
        let current_study_time := total_study_time s in
        if current_study_time <? long_break_threshold
        then
          let remaining_seconds := long_break_threshold - current_study_time in
          let remaining_seconds :=
            if (CycleState_eqb (current_state s) studying && isActive t)%bool
            then remaining_seconds - remainingTime t / 1000
            else remaining_seconds in
          Some (long_break_in (fst (divmod60 remaining_seconds)))
        else Some long_break_available
    end in
  let is_running := isActive t in
  let is_paused := is_paused s in
  mk_menu info text line
    (negb (is_running && negb is_paused))
    (negb (negb is_running || is_paused)).

(** * More vocabulary of the properties *)

(** The total last sent to the label, and the status last sent out. *)
Fixpoint last_total (l : list Emission) : option Z :=
  match l with
  | [] => None
  | e :: rest =>
      match last_total rest with
      | Some v => Some v
      | None => match e with time_updated v => Some v | _ => None end
      end
  end.

Fixpoint last_status (l : list Emission) : option (string * CycleState) :=
  match l with
  | [] => None
  | e :: rest =>
      match last_status rest with
      | Some v => Some v
      | None =>
          match e with state_changed txt st => Some (txt, st) | _ => None end
      end
  end.

(** Facts kept by every reachable state, beside [Inv]. *)
Record Inv2 (s : Engine) : Prop := mk_Inv2 {
  inv_session_only_studying :
    current_session_start_time s <> None -> current_state s = studying;
  inv_cycle_count : 0 <= cycle_count s;
  inv_cycle_count_stopped : current_state s = stopped -> cycle_count s = 0;
  inv_cycle_count_studying : current_state s = studying -> 1 <= cycle_count s;
  inv_below_threshold :
    current_state s = studying ->
    current_cycle_study_time s < long_break_threshold (config s);
  inv_overshoot :
    current_state s = short_breaking ->
    current_cycle_study_time s
    < long_break_threshold (config s) + study_time_max (config s);
  inv_last_total :
    last_total (emitted s) = Some (wrap_int (total_study_time s));
  inv_last_status :
    exists txt,
      last_status (emitted s) = Some (txt, current_state s)
      /\ (txt = text_paused <-> is_paused s = true);
  inv_timer_fits : active (timer s) = true -> remaining (timer s) <= INT_MAX;
  inv_pause_fits : is_paused s = true -> time_remaining_on_pause s <= INT_MAX
}.

(** Durations and the stored total are not negative. *)
Definition nonneg_config (cfg : Config) : Prop :=
  0 <= study_time_min cfg /\ 0 <= short_break_duration cfg
  /\ 0 <= long_break_duration cfg /\ 0 <= config_total_study_time cfg.

(** Every configured duration, in milliseconds, is a C [int]. *)
Definition delays_fit (cfg : Config) : Prop :=
  fits_int (study_time_min cfg * 1000) = true
  /\ fits_int (study_time_max cfg * 1000) = true
  /\ fits_int (short_break_duration cfg * 1000) = true
  /\ fits_int (long_break_duration cfg * 1000) = true.

(** The total is a C [int], and is one still when a study round of the
    configured range is added to it: the signal [time_updated] then
    carries it as it is. *)
Definition total_fits (cfg : Config) (s : Engine) : Prop :=
  fits_int (total_study_time s) = true
  /\ fits_int (total_study_time s + study_time_min cfg) = true
  /\ fits_int (total_study_time s + study_time_max cfg) = true.

(** Facts kept by every reachable state under [nonneg_config]. *)
Record Inv3 (s : Engine) : Prop := mk_Inv3 {
  inv_cycle_within_total :
    0 <= current_cycle_study_time s <= total_study_time s;
  inv_phase_alive :
    in_phase (current_state s) ->
    active (timer s) = true \/ is_paused s = true
}.

(** The changes of phase the engine makes. *)
Definition transition (a b : CycleState) : Prop :=
  match a, b with
  | stopped, studying | stopped, long_breaking
  | studying, short_breaking
  | short_breaking, studying | short_breaking, long_breaking
  | long_breaking, long_break_finished
  | long_break_finished, studying | long_break_finished, long_breaking
  | _, stopped => True
  | _, _ => False
  end.

(** * The configuration file: [load_or_create_config] and [save_config] *)

(** Values of [json.load]. A JSON object is a Python [dict]: here the
    list of its items in insertion order. *)
#[warnings="-register-all"]
Inductive json : Type :=
| JNull
| JBool (b : bool)
| JInt (n : Z)
| JFloat (q : Q)
| JStr (s : string)
| JList (l : list json)
| JDict (d : list (string * json)).

(** [d.get(key)], [key in d] and [d[key] = value] on a [dict] with
    string keys. A new key goes to the end; an old one keeps its place. *)
Fixpoint dict_get {V} (d : list (string * V)) (key : string) : option V :=
  match d with
  | [] => None
  | (k, v) :: rest => if String.eqb k key then Some v else dict_get rest key
  end.

Definition dict_has {V} (d : list (string * V)) (key : string) : bool :=
  match dict_get d key with Some _ => true | None => false end.

Fixpoint dict_set {V} (d : list (string * V)) (key : string) (value : V)
  : list (string * V) :=
  match d with
  | [] => [(key, value)]
  | (k, v) :: rest =>
      if String.eqb k key then (k, value) :: rest
      else (k, v) :: dict_set rest key value
  end.

(** [needle in hay] on strings. *)
Fixpoint is_substring (needle hay : string) : bool :=
  if String.prefix needle hay then true
  else match hay with
       | EmptyString => false
       | String _ rest => is_substring needle rest
       end.

(** The value is a JSON object. *)
Definition is_object (j : json) : bool :=
  match j with JDict _ => true | _ => false end.

(** The exceptions [load_or_create_config] catches. *)
Inductive config_error : Type := JSONDecodeError | ItemTypeError.

(** [key in container]: by key on a dict, by element on a list, by
    substring on a string; the other values are not containers. *)
Definition py_contains (container : json) (key : string) : config_error + bool :=
  match container with
  | JDict d => inr (dict_has d key)
  | JList l =>
      inr (existsb (fun x => match x with
                             | JStr s => String.eqb s key
                             | _ => false
                             end) l)
  | JStr s => inr (is_substring key s)
  | _ => inl ItemTypeError
  end.

(** [container[key] = value] with a string key: only a dict takes it. *)
Definition py_setitem (container : json) (key : string) (value : json)
  : config_error + json :=
  match container with
  | JDict d => inr (JDict (dict_set d key value))
  | _ => inl ItemTypeError
  end.

(** The items of the dictionary [DEFAULT_CONFIG]. *)
Definition DEFAULT_CONFIG_items : list (string * json) :=
  [("study_time_min", JInt (3 * 60));
   ("study_time_max", JInt (5 * 60));
   ("short_break_duration", JInt 10);
   ("long_break_threshold", JInt (90 * 60));
   ("long_break_duration", JInt (20 * 60));
   ("music_folder", JStr "study_music");
   ("sound_files",
    JDict [("start_study", JStr "start_study.mp3");
           ("start_short_break", JStr "start_short_break.mp3");
           ("start_long_break", JStr "start_long_break.mp3");
           ("end_long_break", JStr "end_long_break.mp3")]);
   ("total_study_time", JInt 0)]%string.

(** The loop of [load_or_create_config] over the default items: a key
    that the document does not hold is set to its default. *)
Fixpoint back_fill (defaults : list (string * json)) (user_config : json)
    (updated : bool) : config_error + json * bool :=
  match defaults with
  | [] => inr (user_config, updated)
  | (key, value) :: rest =>
      match py_contains user_config key with
      | inl err => inl err
      | inr true => back_fill rest user_config updated
      | inr false =>
          match py_setitem user_config key value with
          | inl err => inl err
          | inr user_config' => back_fill rest user_config' true
          end
      end
  end.

(** What reading [config.json] can raise beside [JSONDecodeError]: the
    file cannot be opened ([OSError]: no permission, a directory), its
    bytes are not UTF-8 ([UnicodeDecodeError]), or it nests deeper than
    the parser goes ([RecursionError]). None of them is caught. *)
Inductive read_error : Type :=
| OSError | UnicodeDecodeError | RecursionError.

(** [config.json]: absent, or a text that [json.load] rejects with
    [JSONDecodeError], or a file whose reading raises another exception,
    or a text read as a value. *)
Inductive config_text : Type :=
| unparsable
| unreadable (x : read_error)
| parsed (j : json).

Definition config_file : Type := option config_text.

(** How a write goes: the text is written, or the file cannot be opened
    and stays as it was, or the write breaks off and leaves a text that
    does not parse; as [json.dump] is called with [ensure_ascii=False],
    a text with characters outside ASCII can also break off inside one
    of them, which leaves bytes that are not UTF-8. The exception is
    caught and printed in the failing cases. *)
Inductive write_outcome : Type :=
| written | refused | torn | torn_in_character.

Definition write_config (w : write_outcome) (doc : json) (f : config_file)
  : config_file :=
  match w with
  | written => Some (parsed doc)
  | refused => f
  | torn => Some unparsable
  | torn_in_character => Some (unreadable UnicodeDecodeError)
  end.

Definition save_config (w : write_outcome) (config_data : json)
    (f : config_file) : config_file :=
  write_config w config_data f.

(** [load_or_create_config]: the document returned, or the exception
    that escapes, and the file left. [JSONDecodeError] and [TypeError]
    are caught and give the defaults; the other exceptions of the read
    are not. *)
Definition load_or_create_config (w : write_outcome) (f : config_file)
  : (read_error + json) * config_file :=
  match f with
  | None => (inr (JDict DEFAULT_CONFIG_items),
             write_config w (JDict DEFAULT_CONFIG_items) f)
  | Some unparsable => (inr (JDict DEFAULT_CONFIG_items), f)
  | Some (unreadable x) => (inl x, f)
  | Some (parsed user_config) =>
      match back_fill DEFAULT_CONFIG_items user_config false with
      | inl _ => (inr (JDict DEFAULT_CONFIG_items), f)
      | inr (user_config', updated) =>
          (inr user_config',
           if updated then save_config w user_config' f else f)
      end
  end.

(** The numeric keys as the engine reads them ([self.config["..."]],
    and [get("total_study_time", 0)]), when they hold integers. *)
Definition get_int (d : list (string * json)) (key : string) : option Z :=
  match dict_get d key with
  | Some (JInt n) => Some n
  | _ => None
  end.

Definition config_of_items (d : list (string * json)) : option Config :=
  match get_int d "study_time_min", get_int d "study_time_max",
        get_int d "short_break_duration", get_int d "long_break_threshold",
        get_int d "long_break_duration" with
  | Some a, Some b, Some c, Some thr, Some e =>
      match dict_get d "total_study_time" with
      | None => Some (mk_config a b c thr e 0)
      | Some (JInt t) => Some (mk_config a b c thr e t)
      | Some _ => None
      end
  | _, _, _, _, _ => None
  end.

(** [closeEvent] on the dictionary: the total is stored under its key
    and the dictionary is saved. *)
Definition save_total (w : write_outcome) (d : list (string * json))
    (total : Z) (f : config_file) : list (string * json) * config_file :=
  let d' := dict_set d "total_study_time" (JInt total) in
  (d', save_config w (JDict d') f).

(** All the keys of [defaults] are held by the dict [d]. *)
Definition has_all_keys (defaults d : list (string * json)) : Prop :=
  forall k, dict_has defaults k = true -> dict_has d k = true.

(** * The log file: [StudyLogger.__init__] and the rows *)

Inductive csv_line : Type :=
| header_line
| row_line (r : LogRecord).

(** [study_log.csv]: absent, or its lines. *)
Definition log_file : Type := option (list csv_line).

Definition file_lines (f : log_file) : list csv_line :=
  match f with Some l => l | None => [] end.

(** The rows of a file, header left out. *)
Fixpoint rows_of (l : list csv_line) : LogStore :=
  match l with
  | [] => []
  | header_line :: rest => rows_of rest
  | row_line r :: rest => r :: rows_of rest
  end.

(** How opening the log file and writing a line goes: the line is
    written; or the file cannot be opened and stays as it was; or it is
    opened, which creates it when it is absent, and the write fails,
    which leaves the lines as they were (none in a new file). [IOError]
    is caught and printed in both failing cases. A line is short: it is
    written in one piece or not at all. *)
Inductive disk_outcome : Type := line_written | not_opened | not_written.

Definition succeeded (o : disk_outcome) : bool :=
  match o with line_written => true | _ => false end.

(** [_initialize_file]: a file that is absent is created with the header;
    one that exists is left alone. *)
Definition _initialize_file (o : disk_outcome) (f : log_file) : log_file :=
  match f with
  | None =>
      match o with
      | line_written => Some [header_line]
      | not_opened => None
      | not_written => Some []
      end
  | Some _ => f
  end.

(** [log_session] on the file: opening for append creates the file when
    it is absent. *)
Definition log_session_file (o : disk_outcome) (st en : option datetime)
    (net_duration_seconds : Z) (f : log_file) : log_file :=
  match st, en with
  | Some s, Some e =>
      if 0 <? net_duration_seconds
      then match o with
           | line_written =>
               Some (file_lines f
                       ++ [row_line (make_row s e net_duration_seconds)])
           | not_opened => f
           | not_written => Some (file_lines f)
           end
      else f
  | _, _ => f
  end.

(** The calls made on a logger. *)
Inductive logger_call : Type :=
| call_initialize (o : disk_outcome)
| call_log_session (o : disk_outcome) (st en : option datetime) (n : Z).

Definition logger_do (c : logger_call) (f : log_file) : log_file :=
  match c with
  | call_initialize o => _initialize_file o f
  | call_log_session o st en n => log_session_file o st en n f
  end.

Definition logger_run (cs : list logger_call) (f : log_file) : log_file :=
  fold_left (fun f c => logger_do c f) cs f.

(** * The sound table: [_validate_and_get_sound_paths] and [_play_sound] *)

(** [os.path.join(a, b)] on POSIX paths. *)
Definition ends_with_slash (a : string) : bool :=
  match String.get (String.length a - 1) a with
  | Some c => Ascii.eqb c "/"
  | None => false
  end.

Definition path_join (a b : string) : string :=
  if String.prefix "/" b then b
  else if (String.eqb a "" || ends_with_slash a)%bool then (a ++ b)%string
  else (a ++ "/" ++ b)%string.

(** The part of the file system the engine looks at. *)
Record FileSystem : Type := mk_fs {
  isdir : string -> bool;
  isfile : string -> bool
}.

Inductive sound_error : Type :=
| folder_not_found (folder_path : string)
| audio_file_not_found (path : string).

(** The loop over [config["sound_files"].items()], the file names being
    strings: the dict of paths built so far, or the first file that is
    missing. *)
Fixpoint collect_sound_paths (fs : FileSystem) (folder_path : string)
    (sound_files paths : list (string * string))
  : sound_error + list (string * string) :=
  match sound_files with
  | [] => inr paths
  | (key, filename) :: rest =>
      let path := path_join folder_path filename in
      if isfile fs path
      then collect_sound_paths fs folder_path rest (dict_set paths key path)
      else inl (audio_file_not_found path)
  end.

(** [_validate_and_get_sound_paths], with [base] the directory that
    [resource_path] resolves against. *)
Definition _validate_and_get_sound_paths (fs : FileSystem) (base : string)
    (music_folder : string) (sound_files : list (string * string))
  : sound_error + list (string * string) :=
  let folder_path := path_join base music_folder in
  if isdir fs folder_path
  then collect_sound_paths fs folder_path sound_files []
  else inl (folder_not_found folder_path).

(** The name of a cue in the sound table. *)
Definition sound_key_name (k : SoundKey) : string :=
  match k with
  | start_study => "start_study"
  | start_short_break => "start_short_break"
  | start_long_break => "start_long_break"
  | end_long_break => "end_long_break"
  end.

(** What the body of [_play_sound] hands to the mixer: the path found
    under the key, nothing when the key is absent or the path empty. *)
Definition sound_to_play (sound_paths : list (string * string)) (k : SoundKey)
  : option string :=
  match dict_get sound_paths (sound_key_name k) with
  | Some path => if String.eqb path "" then None else Some path
  | None => None
  end.

(** The keys of a table are pairwise distinct, as in a Python dict. *)
Fixpoint distinct_keys {V} (d : list (string * V)) : Prop :=
  match d with
  | [] => True
  | (k, _) :: rest => dict_get rest k = None /\ distinct_keys rest
  end.

(** * Properties *)

(** ** The range of a C [int] *)

Lemma fits_int_iff z : fits_int z = true <-> INT_MIN <= z <= INT_MAX.
Proof. unfold fits_int. rewrite andb_true_iff, !Z.leb_le. tauto. Qed.

Lemma wrap_int_fits z : fits_int z = true -> wrap_int z = z.
Proof.
  rewrite fits_int_iff. unfold wrap_int, INT_MIN, INT_MAX. intros Hz.
  rewrite Z.mod_small by lia. lia.
Qed.

Lemma effective_interval_nonneg z : 0 <= effective_interval z.
Proof. unfold effective_interval. destruct (Z.ltb_spec z 0); lia. Qed.

Lemma effective_interval_id z : 0 <= z -> effective_interval z = z.
Proof. unfold effective_interval. destruct (Z.ltb_spec z 0); lia. Qed.

Lemma effective_interval_le z : z <= INT_MAX -> effective_interval z <= INT_MAX.
Proof.
  unfold effective_interval, INT_MAX. destruct (Z.ltb_spec z 0); lia.
Qed.

Lemma between_fits lo hi z :
  fits_int (lo * 1000) = true -> fits_int (hi * 1000) = true ->
  lo <= z <= hi -> fits_int (z * 1000) = true.
Proof. rewrite !fits_int_iff. lia. Qed.

(** ** Equations of the methods *)

Lemma drawn_in_range cfg e :
  study_time_min cfg <= study_time_max cfg ->
  study_time_min cfg <= drawn cfg e <= study_time_max cfg.
Proof.
  intros Hle. unfold drawn.
  pose proof (Z.mod_pos_bound (entropy e)
                (study_time_max cfg - study_time_min cfg + 1)) as Hb.
  lia.
Qed.

Lemma randint_every_value a b v :
  a <= v <= b -> forall t ok s, randint a b (mk_env t (v - a) ok) s = (inr v, s).
Proof.
  intros Hv t ok s. unfold randint, ret. cbn [entropy].
  destruct (Z.leb_spec a b); [|lia].
  rewrite Z.mod_small by lia. f_equal. f_equal. lia.
Qed.

Lemma reset_cycle_eq s : reset_cycle s = (inr tt, was_reset s).
Proof. reflexivity. Qed.

Lemma reset_all_eq s : reset_all s = (inr tt, was_reset_all s).
Proof. reflexivity. Qed.

Lemma dispatch_reset_cycle s : dispatch ev_reset_cycle s = (inr tt, was_reset s).
Proof. reflexivity. Qed.

Lemma dispatch_reset_all s : dispatch ev_reset_all s = (inr tt, was_reset_all s).
Proof. reflexivity. Qed.

Lemma dispatch_elapse ms s : dispatch (ev_elapse ms) s = (inr tt, elapsed ms s).
Proof. reflexivity. Qed.

Lemma _run_short_break_cycle_eq s :
  fits_int (short_break_duration (config s) * 1000) = true ->
  _run_short_break_cycle s = (inr tt, entered_short_break s).
Proof.
  intros Hfit. unfold _run_short_break_cycle, bind, timer_start_call. cbn.
  rewrite Hfit. reflexivity.
Qed.

Lemma _run_short_break_cycle_overflow s :
  fits_int (short_break_duration (config s) * 1000) = false ->
  _run_short_break_cycle s = (inl OverflowError, short_break_not_started s).
Proof.
  intros Hfit. unfold _run_short_break_cycle, bind, timer_start_call. cbn.
  rewrite Hfit. reflexivity.
Qed.

Lemma _run_long_break_cycle_eq s :
  fits_int (long_break_duration (config s) * 1000) = true ->
  _run_long_break_cycle s = (inr tt, entered_long_break s).
Proof.
  intros Hfit. unfold _run_long_break_cycle, bind, timer_start_call. cbn.
  rewrite Hfit. reflexivity.
Qed.

Lemma _run_long_break_cycle_overflow s :
  fits_int (long_break_duration (config s) * 1000) = false ->
  _run_long_break_cycle s = (inl OverflowError, long_break_not_started s).
Proof.
  intros Hfit. unfold _run_long_break_cycle, bind, timer_start_call. cbn.
  rewrite Hfit. reflexivity.
Qed.

Lemma _run_study_cycle_eq e s :
  study_time_min (config s) <= study_time_max (config s) ->
  fits_int (drawn (config s) e * 1000) = true ->
  _run_study_cycle e s = (inr tt, entered_study e s).
Proof.
  intros Hle Hfit. unfold _run_study_cycle, bind, randint, timer_start_call.
  cbn.
  destruct (Z.leb_spec (study_time_min (config s)) (study_time_max (config s)));
    [|lia].
  cbn. fold (drawn (config s) e). rewrite Hfit. reflexivity.
Qed.

Lemma _run_study_cycle_overflow e s :
  study_time_min (config s) <= study_time_max (config s) ->
  fits_int (drawn (config s) e * 1000) = false ->
  _run_study_cycle e s = (inl OverflowError, study_not_started e s).
Proof.
  intros Hle Hfit. unfold _run_study_cycle, bind, randint, timer_start_call.
  cbn.
  destruct (Z.leb_spec (study_time_min (config s)) (study_time_max (config s)));
    [|lia].
  cbn. fold (drawn (config s) e). rewrite Hfit. reflexivity.
Qed.

Lemma _run_study_cycle_raises e s :
  study_time_max (config s) < study_time_min (config s) ->
  exists s', _run_study_cycle e s = (inl ValueError, s')
             /\ logger s' = logger s
             /\ total_study_time s' = total_study_time s.
Proof.
  intros Hlt. unfold _run_study_cycle, bind, randint. cbn.
  destruct (Z.leb_spec (study_time_min (config s)) (study_time_max (config s)));
    [lia|].
  eexists. split; [reflexivity|]. split; reflexivity.
Qed.

Lemma pause_active s :
  active (timer s) = true -> pause s = (inr tt, paused_from s).
Proof.
  intros Ha. unfold pause, bind, get, isActive, remainingTime. rewrite Ha.
  reflexivity.
Qed.

Lemma pause_inactive s : active (timer s) = false -> pause s = (inr tt, s).
Proof. intros Ha. unfold pause, bind, get, isActive. rewrite Ha. reflexivity. Qed.

Lemma _resume_paused s : is_paused s = true -> _resume s = (inr tt, resumed s).
Proof. intros Hp. unfold _resume, bind, get. rewrite Hp. reflexivity. Qed.

Lemma start_or_resume_paused e s :
  is_paused s = true -> start_or_resume e s = (inr tt, resumed s).
Proof.
  intros Hp. unfold start_or_resume, bind, get. rewrite Hp.
  now apply _resume_paused.
Qed.

Lemma on_timer_timeout_studying e s d :
  current_state s = studying -> duration (timer s) = Some d ->
  on_timer_timeout e s = _run_short_break_cycle (study_credited e d s).
Proof.
  intros Hst Hd. unfold on_timer_timeout, bind, get. rewrite Hst.
  destruct s as [c l p r t tot cyc st dur n cs em]; cbn in *. subst cs.
  unfold study_credited, logger_log_session, log_session, bind, get. cbn.
  destruct st as [t0|]; [destruct (0 <? dur)|]; cbn; rewrite Hd; reflexivity.
Qed.

Lemma on_timer_timeout_short_breaking e s :
  current_state s = short_breaking ->
  on_timer_timeout e s =
    if long_break_threshold (config s) <=? current_cycle_study_time s
    then _run_long_break_cycle s else _run_study_cycle e s.
Proof.
  intros Hst. unfold on_timer_timeout, bind, get. rewrite Hst.
  now destruct (_ <=? _).
Qed.

Lemma on_timer_timeout_long_breaking e s :
  current_state s = long_breaking ->
  on_timer_timeout e s = (inr tt, long_break_ended s).
Proof.
  intros Hst. unfold on_timer_timeout, bind, get. rewrite Hst. reflexivity.
Qed.

Lemma on_timer_timeout_idle e s :
  current_state s = stopped \/ current_state s = long_break_finished ->
  on_timer_timeout e s = (inr tt, s).
Proof.
  intros [Hst|Hst]; unfold on_timer_timeout, bind, get; rewrite Hst; reflexivity.
Qed.

Lemma fire_due e s :
  timer_due (timer s) = true -> fire e s = on_timer_timeout e (fired s).
Proof. intros Hd. unfold fire, bind, get. rewrite Hd. reflexivity. Qed.

Lemma fire_not_due e s : timer_due (timer s) = false -> fire e s = (inr tt, s).
Proof. intros Hd. unfold fire, bind, get. rewrite Hd. reflexivity. Qed.

Lemma start_or_resume_running e s :
  is_paused s = false ->
  current_state s <> stopped -> current_state s <> long_break_finished ->
  start_or_resume e s = (inr tt, s).
Proof.
  intros Hp H1 H2. unfold start_or_resume, bind, get. rewrite Hp.
  destruct (current_state s); try reflexivity; congruence.
Qed.

Lemma start_or_resume_stopped e s :
  is_paused s = false -> current_state s = stopped ->
  start_or_resume e s =
    if long_break_threshold (config s) <=? current_cycle_study_time s
    then _run_long_break_cycle s else _run_study_cycle e s.
Proof.
  intros Hp Hst. unfold start_or_resume, bind, get. rewrite Hp, Hst.
  destruct s as [c l p r t tot cyc st dur n cs em]; cbn in *. subst p cs.
  now destruct (_ <=? _).
Qed.

Lemma start_or_resume_finished e s :
  is_paused s = false -> current_state s = long_break_finished ->
  start_or_resume e s =
    if long_break_threshold (config s) <=? 0
    then _run_long_break_cycle (was_reset s)
    else _run_study_cycle e (was_reset s).
Proof.
  intros Hp Hst. unfold start_or_resume, bind, get. rewrite Hp, Hst. cbn.
  now destruct (_ <=? _).
Qed.

(** ** Invariants of the reachable states *)

Ltac inv_cases :=
  repeat match goal with
         | H : _ /\ _ |- _ => destruct H
         | H : _ \/ _ |- _ => destruct H
         | H : exists _, _ |- _ => destruct H
         | H : (_ <=? _) = true |- _ => apply Z.leb_le in H
         | H : (_ =? _) = true |- _ => apply Z.eqb_eq in H
         | H : (_ && _)%bool = true |- _ => apply andb_true_iff in H
         end;
  try discriminate; try congruence; try lia.

Ltac inv_intro :=
  constructor; cbn; unfold in_phase; intros; inv_cases; auto;
  try apply effective_interval_nonneg.

Lemma Inv_init cfg : Inv cfg (init cfg).
Proof. inv_intro. Qed.

Lemma Inv_was_reset cfg s : Inv cfg s -> Inv cfg (was_reset s).
Proof. intros [Hc _ _ _ _ _]. inv_intro. Qed.

Lemma Inv_entered_short_break cfg s :
  config s = cfg -> is_paused s = false ->
  Inv cfg (entered_short_break s).
Proof. intros Hc Hp. inv_intro. Qed.

Lemma Inv_entered_long_break cfg s :
  config s = cfg -> is_paused s = false ->
  Inv cfg (entered_long_break s).
Proof. intros Hc Hp. inv_intro. Qed.

Lemma Inv_entered_study cfg e s :
  config s = cfg -> is_paused s = false ->
  study_time_min cfg <= study_time_max cfg ->
  Inv cfg (entered_study e s).
Proof.
  intros Hc Hp Hle. inv_intro.
  exists (drawn (config s) e), (now e). subst cfg.
  repeat split; auto; now apply drawn_in_range.
Qed.

(** The two places where a new phase is chosen run the same test. *)
Lemma Inv_choose_phase cfg e s s' :
  config s = cfg -> is_paused s = false ->
  (if long_break_threshold (config s) <=? current_cycle_study_time s
   then _run_long_break_cycle s else _run_study_cycle e s) = (inr tt, s') ->
  Inv cfg s'.
Proof.
  intros Hc Hp Hrun. destruct (_ <=? _).
  - destruct (fits_int (long_break_duration (config s) * 1000)) eqn:Hfit.
    + rewrite _run_long_break_cycle_eq in Hrun by assumption.
      injection Hrun as <-. now apply Inv_entered_long_break.
    + rewrite _run_long_break_cycle_overflow in Hrun by assumption.
      discriminate.
  - destruct (Z.le_gt_cases (study_time_min (config s)) (study_time_max (config s)))
      as [Hle|Hgt].
    + destruct (fits_int (drawn (config s) e * 1000)) eqn:Hfit.
      * rewrite _run_study_cycle_eq in Hrun by assumption.
        injection Hrun as <-. apply Inv_entered_study; auto; congruence.
      * rewrite _run_study_cycle_overflow in Hrun by assumption.
        discriminate.
    + destruct (_run_study_cycle_raises e s) as (s2 & Heq & _); [lia|].
      congruence.
Qed.

Lemma Inv_resumed cfg s : Inv cfg s -> is_paused s = true -> Inv cfg (resumed s).
Proof.
  intros [Hc Hr Hrun Hpa Hz Hs] Hp. destruct (Hpa Hp) as [Hrem Hph].
  constructor; cbn; unfold in_phase in *; intros; inv_cases; auto;
    apply effective_interval_nonneg.
Qed.

Lemma Inv_start_or_resume cfg e s s' :
  Inv cfg s -> start_or_resume e s = (inr tt, s') -> Inv cfg s'.
Proof.
  intros HI Hd. destruct (is_paused s) eqn:Hp.
  - rewrite start_or_resume_paused in Hd by assumption. injection Hd as <-.
    now apply Inv_resumed.
  - destruct (current_state s) eqn:Hst.
    + rewrite start_or_resume_stopped in Hd by assumption.
      apply (Inv_choose_phase cfg e s s'); auto. apply HI.
    + rewrite start_or_resume_running in Hd by congruence.
      injection Hd as <-. exact HI.
    + rewrite start_or_resume_running in Hd by congruence.
      injection Hd as <-. exact HI.
    + rewrite start_or_resume_running in Hd by congruence.
      injection Hd as <-. exact HI.
    + rewrite start_or_resume_finished in Hd by assumption.
      apply (Inv_choose_phase cfg e (was_reset s) s'); auto. apply HI.
Qed.

Lemma Inv_paused_from cfg s :
  Inv cfg s -> active (timer s) = true -> Inv cfg (paused_from s).
Proof.
  intros [Hc Hr Hrun Hpa Hz Hs] Ha. destruct (Hrun Ha) as [Hp Hph].
  specialize (Hr Ha).
  constructor; cbn; unfold in_phase in *; intros; inv_cases; auto.
Qed.

Lemma Inv_pause cfg s s' : Inv cfg s -> pause s = (inr tt, s') -> Inv cfg s'.
Proof.
  intros HI Hd. destruct (active (timer s)) eqn:Ha.
  - rewrite pause_active in Hd by assumption. injection Hd as <-.
    now apply Inv_paused_from.
  - rewrite pause_inactive in Hd by assumption. injection Hd as <-. exact HI.
Qed.

Lemma Inv_was_reset_all cfg s : Inv cfg s -> Inv cfg (was_reset_all s).
Proof. intros [Hc _ _ _ _ _]. inv_intro. Qed.

Lemma Inv_elapsed cfg ms s : Inv cfg s -> Inv cfg (elapsed ms s).
Proof.
  intros [Hc Hr Hrun Hpa Hz Hs].
  destruct (active (timer s)) eqn:Ha.
  - destruct (Hrun eq_refl) as [Hp Hph].
    constructor; cbn; unfold timer_elapse; rewrite ?Ha; cbn; auto; lia.
  - constructor; cbn; unfold timer_elapse; rewrite ?Ha; auto;
      intros; congruence.
Qed.

Lemma Inv_long_break_ended cfg s :
  Inv cfg s -> current_state s = long_breaking -> is_paused s = false ->
  Inv cfg (long_break_ended (fired s)).
Proof.
  intros [Hc Hr Hrun Hpa Hz Hs] Hst Hp.
  assert (current_cycle_study_time s = 0) by auto.
  inv_intro.
Qed.

Lemma Inv_fire cfg e s s' : Inv cfg s -> fire e s = (inr tt, s') -> Inv cfg s'.
Proof.
  intros HI Hd. destruct (timer_due (timer s)) eqn:Hdue.
  - rewrite fire_due in Hd by assumption.
    pose proof HI as [Hc Hr Hrun Hpa Hz Hs].
    unfold timer_due in Hdue. apply andb_true_iff in Hdue as [Ha _].
    destruct (Hrun Ha) as [Hp [Hst|[Hst|Hst]]].
    + destruct (Hs Hst) as (d & t0 & Hs1 & Hs2 & Hs3 & Hs4).
      rewrite (on_timer_timeout_studying e (fired s) d) in Hd by assumption.
      destruct (fits_int (short_break_duration (config s) * 1000)) eqn:Hfit.
      * rewrite _run_short_break_cycle_eq in Hd by assumption.
        injection Hd as <-. now apply Inv_entered_short_break.
      * rewrite _run_short_break_cycle_overflow in Hd by assumption.
        discriminate.
    + rewrite on_timer_timeout_short_breaking in Hd by assumption.
      apply (Inv_choose_phase cfg e (fired s) s'); auto.
    + rewrite on_timer_timeout_long_breaking in Hd by assumption.
      injection Hd as <-. now apply Inv_long_break_ended.
  - rewrite fire_not_due in Hd by assumption. injection Hd as <-. exact HI.
Qed.

Lemma Inv_dispatch cfg ev s s' :
  Inv cfg s -> dispatch ev s = (inr tt, s') -> Inv cfg s'.
Proof.
  intros HI. destruct ev as [e| | | |ms|e].
  - apply Inv_start_or_resume, HI.
  - apply Inv_pause, HI.
  - rewrite dispatch_reset_cycle. intros [= <-]. now apply Inv_was_reset.
  - rewrite dispatch_reset_all. intros [= <-]. now apply Inv_was_reset_all.
  - rewrite dispatch_elapse. intros [= <-]. now apply Inv_elapsed.
  - apply Inv_fire, HI.
Qed.

Lemma reachable_Inv cfg s : reachable cfg s -> Inv cfg s.
Proof.
  induction 1 as [|s ev s' _ IH Hd]; [apply Inv_init | eapply Inv_dispatch; eauto].
Qed.

(** ** Runs *)

Lemma run_app evs1 evs2 s :
  run (evs1 ++ evs2) s =
    match run evs1 s with
    | (inr _, s1) => run evs2 s1
    | (inl x, s1) => (inl x, s1)
    end.
Proof.
  revert s. induction evs1 as [|ev evs1 IH]; intros s; [reflexivity|].
  cbn [run app]. unfold bind at 1 2. destruct (dispatch ev s) as [[x|[]] s1].
  - reflexivity.
  - apply IH.
Qed.

Lemma run_reachable cfg evs : forall s s',
  reachable cfg s -> run evs s = (inr tt, s') -> reachable cfg s'.
Proof.
  induction evs as [|ev evs IH]; intros s s' Hr Hrun.
  - injection Hrun as <-. exact Hr.
  - cbn [run] in Hrun. unfold bind in Hrun.
    destruct (dispatch ev s) as [[x|[]] s1] eqn:Hd; [discriminate|].
    apply (IH s1); [|exact Hrun]. eapply reach_step; eauto.
Qed.

Lemma after_reachable cfg evs s : after cfg evs s -> reachable cfg s.
Proof. intros H. eapply run_reachable; [apply reach_init | exact H]. Qed.

(** While the timer is stopped, waiting changes nothing. *)
Lemma run_waits_inactive waits s :
  active (timer s) = false -> run (map ev_elapse waits) s = (inr tt, s).
Proof.
  intros Ha. induction waits as [|ms waits IH]; [reflexivity|].
  cbn [map run]. unfold bind. rewrite dispatch_elapse.
  replace (elapsed ms s) with s; [exact IH|].
  unfold elapsed, timer_elapse. rewrite Ha. now destruct s.
Qed.

(** ** The drawn study duration *)

(** C8, as stated, fails. With [study_time_min = study_time_max =
    2147484] the delay, 2147484000 ms, is above the largest C [int]:
    [timer.start] raises [OverflowError] and no timer is scheduled. With
    [study_time_min = study_time_max = -1] the round begins with a
    planned duration of -1 s and a timer of 1 ms (Qt 6.10 and later),
    not of -1000 ms. *)
Lemma study_delay_is_not_always_the_drawn_duration :
  _run_study_cycle (at_noon 0) (init long_round_config)
  = (inl OverflowError, study_not_started (at_noon 0) (init long_round_config))
  /\ drawn long_round_config (at_noon 0) = 2147484
  /\ active (timer (study_not_started (at_noon 0) (init long_round_config)))
     = false
  /\ ~ drawn_duration_is_timer_delay long_round_config
  /\ _run_study_cycle (at_noon 0) (init negative_round_config)
     = (inr tt, entered_study (at_noon 0) (init negative_round_config))
  /\ current_session_duration
       (entered_study (at_noon 0) (init negative_round_config)) = -1
  /\ interval (timer (entered_study (at_noon 0) (init negative_round_config)))
     = 1
  /\ ~ drawn_duration_is_timer_delay negative_round_config.
Proof.
  assert (Hlong : _run_study_cycle (at_noon 0) (init long_round_config)
                  = (inl OverflowError,
                     study_not_started (at_noon 0) (init long_round_config)))
    by (apply _run_study_cycle_overflow; vm_compute; congruence).
  assert (Hneg : _run_study_cycle (at_noon 0) (init negative_round_config)
                 = (inr tt, entered_study (at_noon 0) (init negative_round_config)))
    by (apply _run_study_cycle_eq; vm_compute; congruence).
  split; [exact Hlong|]. split; [reflexivity|]. split; [reflexivity|].
  split; [|split; [exact Hneg|split; [reflexivity|split; [reflexivity|]]]].
  - intros H.
    destruct (H ltac:(vm_compute; discriminate) (at_noon 0))
      as (d & s' & Hrun & _).
    rewrite Hlong in Hrun. discriminate.
  - intros H.
    destruct (H ltac:(vm_compute; discriminate) (at_noon 0))
      as (d & s' & Hrun & Hd & _ & _ & Hint).
    rewrite Hneg in Hrun. injection Hrun as <-.
    change (1 = d * 1000) in Hint.
    change (-1 <= d <= -1) in Hd. lia.
Qed.

(** C8, amended. For every configured range
    [study_time_min..study_time_max] that is not empty, starts at 0 or
    above and whose durations in milliseconds are at most 2147483647,
    [_run_study_cycle] returns, and the duration it draws lies in the
    closed range; this duration is the planned duration of the session,
    the value of the timer's "duration" property, and, times 1000, the
    delay the timer is started with. On a range that is not empty, a
    drawn duration whose delay is no C [int] makes [_run_study_cycle]
    raise [OverflowError] with the round announced and the timer not
    started; on an empty range it raises [ValueError]. *)
Theorem study_duration_is_timer_delay (e : Env) (s : Engine) :
  (0 <= study_time_min (config s) ->
   study_time_min (config s) <= study_time_max (config s) ->
   study_time_max (config s) * 1000 <= INT_MAX ->
   exists d s',
     _run_study_cycle e s = (inr tt, s')
     /\ study_time_min (config s) <= d <= study_time_max (config s)
     /\ current_state s' = studying
     /\ current_session_duration s' = d
     /\ duration (timer s') = Some d
     /\ active (timer s') = true
     /\ interval (timer s') = d * 1000)
  /\ (study_time_min (config s) <= study_time_max (config s) ->
      fits_int (drawn (config s) e * 1000) = false ->
      exists s',
        _run_study_cycle e s = (inl OverflowError, s')
        /\ current_state s' = studying
        /\ current_session_duration s' = drawn (config s) e
        /\ active (timer s') = active (timer s)
        /\ interval (timer s') = interval (timer s))
  /\ (study_time_max (config s) < study_time_min (config s) ->
      exists s', _run_study_cycle e s = (inl ValueError, s')).
Proof.
  split; [|split].
  - intros Hmin Hle Hmax.
    pose proof (drawn_in_range (config s) e Hle) as Hd.
    exists (drawn (config s) e), (entered_study e s).
    split.
    { apply _run_study_cycle_eq; [assumption|].
      apply fits_int_iff. unfold INT_MIN, INT_MAX in *. lia. }
    split; [exact Hd|]. cbn. repeat split.
    apply effective_interval_id. lia.
  - intros Hle Hfit. exists (study_not_started e s).
    split; [now apply _run_study_cycle_overflow|]. repeat split.
  - intros Hlt. destruct (_run_study_cycle_raises e s Hlt) as (s' & Hrun & _).
    eauto.
Qed.

Lemma study_duration_is_timer_delay_witness :
  exists d s',
    _run_study_cycle (mk_env noon 1000 true) (init DEFAULT_CONFIG) = (inr tt, s')
    /\ 180 <= d <= 300
    /\ current_state s' = studying
    /\ current_session_duration s' = d
    /\ duration (timer s') = Some d
    /\ active (timer s') = true
    /\ interval (timer s') = d * 1000.
Proof.
  apply (study_duration_is_timer_delay (mk_env noon 1000 true) (init DEFAULT_CONFIG));
    vm_compute; discriminate.
Defined.

(** ** Start while running *)

(** C10. With the engine not paused and a phase under way (studying,
    short break or long break), [start_or_resume] returns and leaves the
    whole engine as it was: same state, same timer, no draw, nothing
    emitted. *)
Theorem start_or_resume_while_running_is_noop (e : Env) (s : Engine) :
  is_paused s = false -> in_phase (current_state s) ->
  start_or_resume e s = (inr tt, s).
Proof.
  intros Hp Hph. apply start_or_resume_running; auto;
    destruct Hph as [H|[H|H]]; rewrite H; discriminate.
Qed.

Lemma start_or_resume_while_running_is_noop_witness :
  start_or_resume (mk_env noon 7 true) studying_engine = (inr tt, studying_engine).
Proof.
  apply (start_or_resume_while_running_is_noop (mk_env noon 7 true) studying_engine).
  - reflexivity.
  - left. reflexivity.
Defined.

(** ** Pause and resume *)

Lemma run_single ev s : run [ev] s = dispatch ev s.
Proof.
  cbn [run]. unfold bind, ret. now destruct (dispatch ev s) as [[x|[]] s1].
Qed.

Lemma dispatch_start_paused e s :
  is_paused s = true -> dispatch (ev_start_or_resume e) s = (inr tt, resumed s).
Proof. intros Hp. cbn [dispatch]. now apply start_or_resume_paused. Qed.

(** C5. In a reachable state whose phase timer is running with [R]
    milliseconds left, [pause] stores [R] and stops the timer; after any
    waiting, [start_or_resume] starts the timer again with exactly [R]
    milliseconds, whatever the random source would give, and the phase,
    the planned duration of the session and the timer's "duration"
    property are those of before the pause. *)
Theorem resume_restarts_with_remaining_time
    (cfg : Config) (s : Engine) (waits : list Z) (e : Env) :
  reachable cfg s -> active (timer s) = true ->
  exists s1 s2,
    pause s = (inr tt, s1)
    /\ is_paused s1 = true
    /\ active (timer s1) = false
    /\ time_remaining_on_pause s1 = remaining (timer s)
    /\ run (map ev_elapse waits ++ [ev_start_or_resume e]) s1 = (inr tt, s2)
    /\ is_paused s2 = false
    /\ active (timer s2) = true
    /\ interval (timer s2) = remaining (timer s)
    /\ remaining (timer s2) = remaining (timer s)
    /\ duration (timer s2) = duration (timer s)
    /\ current_session_duration s2 = current_session_duration s
    /\ current_session_start_time s2 = current_session_start_time s
    /\ current_state s2 = current_state s
    /\ in_phase (current_state s).
Proof.
  intros Hr Ha. apply reachable_Inv in Hr.
  destruct Hr as [_ Hrem Hrun _ _ _].
  specialize (Hrem Ha). destruct (Hrun Ha) as [_ Hph].
  exists (paused_from s), (resumed (paused_from s)).
  split; [now apply pause_active|].
  do 3 (split; [reflexivity|]).
  split.
  { rewrite run_app, run_waits_inactive by reflexivity.
    rewrite run_single. now apply dispatch_start_paused. }
  cbn. repeat split; auto; now apply effective_interval_id.
Qed.

Lemma studying_engine_reachable : reachable DEFAULT_CONFIG studying_engine.
Proof.
  apply (after_reachable DEFAULT_CONFIG
           [ev_start_or_resume (mk_env noon 1000 true); ev_elapse 2000]).
  vm_compute. reflexivity.
Qed.

Lemma resume_restarts_with_remaining_time_witness :
  exists s1 s2,
    pause studying_engine = (inr tt, s1)
    /\ is_paused s1 = true
    /\ active (timer s1) = false
    /\ time_remaining_on_pause s1 = remaining (timer studying_engine)
    /\ run (map ev_elapse [60000; 1500] ++ [ev_start_or_resume (mk_env noon 3 true)]) s1
       = (inr tt, s2)
    /\ is_paused s2 = false
    /\ active (timer s2) = true
    /\ interval (timer s2) = remaining (timer studying_engine)
    /\ remaining (timer s2) = remaining (timer studying_engine)
    /\ duration (timer s2) = duration (timer studying_engine)
    /\ current_session_duration s2 = current_session_duration studying_engine
    /\ current_session_start_time s2 = current_session_start_time studying_engine
    /\ current_state s2 = current_state studying_engine
    /\ in_phase (current_state studying_engine).
Proof.
  apply (resume_restarts_with_remaining_time DEFAULT_CONFIG studying_engine
           [60000; 1500] (mk_env noon 3 true)).
  - exact studying_engine_reachable.
  - reflexivity.
Defined.

(** ** The logger *)

Lemma round_half_even_close (q : Q) :
  (Qabs (inject_Z (round_half_even q) - q) <= 1 # 2)%Q.
Proof.
  unfold round_half_even.
  pose proof (Qfloor_le q) as Hlo. pose proof (Qlt_floor q) as Hhi.
  rewrite inject_Z_plus in Hhi. change (inject_Z 1) with 1%Q in Hhi.
  apply Qabs_Qle_condition.
  destruct (Qcompare_spec (q - inject_Z (Qfloor q)) (1 # 2)) as [He|Hl|Hg].
  - destruct (Z.even (Qfloor q)); rewrite ?inject_Z_plus;
      change (inject_Z 1) with 1%Q; lra.
  - lra.
  - rewrite inject_Z_plus. change (inject_Z 1) with 1%Q. lra.
Qed.

Lemma py_round2_close (q : Q) : (Qabs (py_round2 q - q) <= 1 # 200)%Q.
Proof.
  unfold py_round2. pose proof (round_half_even_close (q * 100)) as H.
  apply Qabs_Qle_condition in H. apply Qabs_Qle_condition.
  set (r := inject_Z (round_half_even (q * 100))) in *.
  unfold Qdiv. change (/ 100)%Q with (1 # 100)%Q. lra.
Qed.

Lemma set_logger_same (s : Engine) : set_logger (logger s) s = (inr tt, s).
Proof. now destruct s. Qed.

(** C9. [log_session] never raises. It leaves the store as it is when
    the start or the end time is absent or [net_duration_seconds <= 0].
    Otherwise, the file being writable, it appends exactly one row: the
    start and end times formatted, the minutes equal to
    [net_duration_seconds / 60] rounded to two decimals (a number of
    hundredths, at most half a hundredth away), and the date and the
    weekday of the start time. *)
Theorem log_session_contract
    (e : Env) (st en : option datetime) (n : Z) (s : Engine) :
  exists s',
    logger_log_session e st en n s = (inr tt, s')
    /\ (st = None \/ en = None \/ n <= 0 -> s' = s)
    /\ (forall t0 t1,
          st = Some t0 -> en = Some t1 -> 0 < n -> disk_ok e = true ->
          exists row,
            logger s' = logger s ++ [row]
            /\ start_time row = strftime_YmdHMS t0
            /\ end_time row = strftime_YmdHMS t1
            /\ net_duration_minutes row = py_round2 (inject_Z n / 60)
            /\ (exists h : Z, net_duration_minutes row = (inject_Z h / 100)%Q)
            /\ (Qabs (net_duration_minutes row - inject_Z n / 60) <= 1 # 200)%Q
            /\ date row = strftime_Ymd t0
            /\ day_of_week row = strftime_A t0).
Proof.
  exists (snd (set_logger (log_session (disk_ok e) st en n (logger s)) s)).
  split; [reflexivity|]. split.
  - intros Hguard.
    assert (log_session (disk_ok e) st en n (logger s) = logger s) as ->.
    { unfold log_session. destruct st as [t0|], en as [t1|]; auto.
      destruct (Z.ltb_spec 0 n); auto.
      destruct Hguard as [H0|[H0|H0]]; try discriminate; lia. }
    now rewrite set_logger_same.
  - intros t0 t1 -> -> Hn Hok.
    exists (make_row t0 t1 n). unfold log_session. rewrite Hok.
    destruct (Z.ltb_spec 0 n); [|lia].
    cbn. repeat split.
    + eexists. reflexivity.
    + apply py_round2_close.
Qed.

Lemma log_session_contract_witness :
  exists row,
    log_session true (Some noon) (Some (mk_datetime 2026 11 3 12 0 5)) 5 []
    = [row]
    /\ start_time row = "2026-11-03 12:00:00"%string
    /\ end_time row = "2026-11-03 12:00:05"%string
    /\ (net_duration_minutes row == 8 # 100)%Q
    /\ date row = "2026-11-03"%string
    /\ day_of_week row = "Tuesday"%string.
Proof.
  destruct (log_session_contract (mk_env noon 0 true) (Some noon)
              (Some (mk_datetime 2026 11 3 12 0 5)) 5 (init DEFAULT_CONFIG))
    as (s' & Hrun & _ & Happ).
  destruct (Happ _ _ eq_refl eq_refl ltac:(lia) eq_refl)
    as (row & Hlog & H1 & H2 & H3 & _ & _ & H4 & H5).
  exists row. injection Hrun as <-.
  split; [exact Hlog|]. rewrite H1, H2, H3, H4, H5.
  repeat split; vm_compute; reflexivity.
Defined.

(** ** Every dispatched call is a step *)

Lemma choose_phase_chosen e s0 r s' :
  (if long_break_threshold (config s0) <=? current_cycle_study_time s0
   then _run_long_break_cycle s0 else _run_study_cycle e s0) = (r, s') ->
  chosen e s0 r s'.
Proof.
  intros Hrun.
  destruct (Z.leb_spec (long_break_threshold (config s0))
              (current_cycle_study_time s0)) as [Hthr|Hthr].
  - destruct (fits_int (long_break_duration (config s0) * 1000)) eqn:Hfit.
    + rewrite _run_long_break_cycle_eq in Hrun by assumption.
      injection Hrun as <- <-. now constructor.
    + rewrite _run_long_break_cycle_overflow in Hrun by assumption.
      injection Hrun as <- <-. now constructor.
  - destruct (Z.le_gt_cases (study_time_min (config s0))
                (study_time_max (config s0))) as [Hle|Hgt].
    + destruct (fits_int (drawn (config s0) e * 1000)) eqn:Hfit.
      * rewrite _run_study_cycle_eq in Hrun by assumption.
        injection Hrun as <- <-. now constructor.
      * rewrite _run_study_cycle_overflow in Hrun by assumption.
        injection Hrun as <- <-. now constructor.
    + destruct (_run_study_cycle_raises e s0) as (s2 & Heq & Hl & Ht); [lia|].
      rewrite Heq in Hrun. injection Hrun as <- <-.
      apply chose_empty_range; auto; lia.
Qed.

Lemma dispatch_step cfg ev s r s' :
  Inv cfg s -> dispatch ev s = (r, s') -> step s ev r s'.
Proof.
  intros HI. pose proof HI as [Hc Hrem Hrun Hpa Hz Hs].
  destruct ev as [e| | | |ms|e].
  - cbn [dispatch]. intros Hd. destruct (is_paused s) eqn:Hp.
    + rewrite start_or_resume_paused in Hd by assumption.
      injection Hd as <- <-. now constructor.
    + destruct (current_state s) eqn:Hst.
      * rewrite start_or_resume_stopped in Hd by assumption.
        apply step_start; auto. now apply choose_phase_chosen.
      * rewrite start_or_resume_running in Hd by congruence.
        injection Hd as <- <-. apply step_start_running; auto.
        rewrite Hst. now left.
      * rewrite start_or_resume_running in Hd by congruence.
        injection Hd as <- <-. apply step_start_running; auto.
        rewrite Hst. right. now left.
      * rewrite start_or_resume_running in Hd by congruence.
        injection Hd as <- <-. apply step_start_running; auto.
        rewrite Hst. right. now right.
      * rewrite start_or_resume_finished in Hd by assumption.
        apply step_restart; auto. now apply choose_phase_chosen.
  - cbn [dispatch]. intros Hd. destruct (active (timer s)) eqn:Ha.
    + rewrite pause_active in Hd by assumption. injection Hd as <- <-.
      now constructor.
    + rewrite pause_inactive in Hd by assumption. injection Hd as <- <-.
      now constructor.
  - rewrite dispatch_reset_cycle. intros [= <- <-]. constructor.
  - rewrite dispatch_reset_all. intros [= <- <-]. constructor.
  - rewrite dispatch_elapse. intros [= <- <-]. constructor.
  - cbn [dispatch]. intros Hd. destruct (timer_due (timer s)) eqn:Hdue.
    + rewrite fire_due in Hd by assumption.
      assert (active (timer s) = true) as Ha.
      { unfold timer_due in Hdue. now apply andb_true_iff in Hdue. }
      destruct (Hrun Ha) as [Hp [Hst|[Hst|Hst]]].
      * destruct (Hs Hst) as (d & t0 & Hs1 & Hs2 & Hs3 & Hs4).
        rewrite (on_timer_timeout_studying e (fired s) d) in Hd by assumption.
        destruct (fits_int (short_break_duration (config s) * 1000)) eqn:Hfit.
        -- rewrite _run_short_break_cycle_eq in Hd by assumption.
           injection Hd as <- <-. apply (step_study_done s e d t0); auto.
           now rewrite Hc.
        -- rewrite _run_short_break_cycle_overflow in Hd by assumption.
           injection Hd as <- <-.
           apply (step_study_done_overflow s e d t0); auto.
           now rewrite Hc.
      * rewrite on_timer_timeout_short_breaking in Hd by assumption.
        apply step_short_break_done; auto. now apply choose_phase_chosen.
      * rewrite on_timer_timeout_long_breaking in Hd by assumption.
        injection Hd as <- <-. now constructor.
    + rewrite fire_not_due in Hd by assumption. injection Hd as <- <-.
      now constructor.
Qed.

(** ** The sample engines are reachable *)

Lemma second_break_due_reachable : reachable scenario_config second_break_due.
Proof.
  apply (after_reachable scenario_config
           [ev_start_or_resume (at_noon 0); ev_elapse 5000; ev_timeout (at_noon 1);
            ev_elapse 2000; ev_timeout (at_noon 2); ev_elapse 5000;
            ev_timeout (at_noon 3); ev_elapse 2000]).
  vm_compute. reflexivity.
Qed.

Lemma long_break_begun_step :
  dispatch (ev_timeout (at_noon 4)) second_break_due = (inr tt, long_break_begun).
Proof. vm_compute. reflexivity. Qed.

(** ** Entering the long break *)

Ltac step_cases H :=
  inversion H; subst; clear H;
  repeat match goal with
         | C : chosen _ _ _ _ |- _ => inversion C; subst; clear C
         end;
  cbn in *.

(** C6. On every step of a reachable run that takes the engine into the
    long break from another state, the study time of the cycle was at
    least [long_break_threshold] just before the step; no reachable step
    enters the long break below the threshold. *)
Theorem long_break_entered_only_at_threshold
    (cfg : Config) (s : Engine) (ev : Event) (s' : Engine) :
  reachable cfg s -> dispatch ev s = (inr tt, s') ->
  current_state s <> long_breaking -> current_state s' = long_breaking ->
  long_break_threshold cfg <= current_cycle_study_time s.
Proof.
  intros Hr Hd Hbefore Hafter. apply reachable_Inv in Hr.
  pose proof (dispatch_step _ _ _ _ _ Hr Hd) as Hstep.
  destruct Hr as [Hc _ _ _ Hz _]. subst cfg. clear Hd.
  step_cases Hstep; try congruence; try discriminate.
  rewrite Hz; auto.
Qed.

Lemma long_break_entered_only_at_threshold_witness :
  long_break_threshold scenario_config <= current_cycle_study_time second_break_due.
Proof.
  apply (long_break_entered_only_at_threshold scenario_config second_break_due
           (ev_timeout (at_noon 4)) long_break_begun).
  - exact second_break_due_reachable.
  - exact long_break_begun_step.
  - discriminate.
  - reflexivity.
Defined.

(** C7. On a step of a reachable run: entering the long break sets the
    study time of the cycle to 0 at once, and the end of the long break
    changes nothing more; entering a study round leaves the study time of
    the cycle as it was; entering a short break happens from studying
    and adds the planned duration of the round just ended. *)
Theorem cycle_study_time_reset_on_long_break_entry
    (cfg : Config) (s : Engine) (ev : Event) (s' : Engine) :
  reachable cfg s -> dispatch ev s = (inr tt, s') ->
  (current_state s <> long_breaking -> current_state s' = long_breaking ->
   current_cycle_study_time s' = 0)
  /\ (current_state s = long_breaking ->
      current_state s' = long_break_finished ->
      current_cycle_study_time s' = current_cycle_study_time s)
  /\ (current_state s <> studying -> current_state s' = studying ->
      current_cycle_study_time s' = current_cycle_study_time s)
  /\ (current_state s <> short_breaking -> current_state s' = short_breaking ->
      current_state s = studying
      /\ current_cycle_study_time s' =
           current_cycle_study_time s + current_session_duration s).
Proof.
  intros Hr Hd. apply reachable_Inv in Hr.
  pose proof (dispatch_step _ _ _ _ _ Hr Hd) as Hstep.
  destruct Hr as [Hc _ _ _ Hz _]. subst cfg. clear Hd.
  step_cases Hstep; unfold in_phase in *;
    repeat split; intros; try congruence; try discriminate;
    try (symmetry; apply Hz; auto).
Qed.

Lemma cycle_study_time_reset_on_long_break_entry_witness :
  current_cycle_study_time second_break_due = 10
  /\ current_state long_break_begun = long_breaking
  /\ current_cycle_study_time long_break_begun = 0.
Proof.
  destruct (cycle_study_time_reset_on_long_break_entry scenario_config
              second_break_due (ev_timeout (at_noon 4)) long_break_begun
              second_break_due_reachable long_break_begun_step)
    as (Hentry & _).
  split; [reflexivity|]. split; [reflexivity|].
  apply Hentry; [discriminate | reflexivity].
Defined.

(** ** Accounting of the total study time *)

Lemma second_round_reachable : reachable scenario_config second_round.
Proof.
  apply (after_reachable scenario_config
           [ev_start_or_resume (at_noon 0); ev_elapse 5000; ev_timeout (at_noon 1);
            ev_elapse 2000; ev_timeout (at_noon 2); ev_elapse 1000]).
  vm_compute. reflexivity.
Qed.

Lemma first_round_due_reachable : reachable scenario_config first_round_due.
Proof.
  apply (after_reachable scenario_config
           [ev_start_or_resume (at_noon 0); ev_elapse 5000]).
  vm_compute. reflexivity.
Qed.

Lemma first_break_step :
  dispatch (ev_timeout (at_noon 1)) first_round_due = (inr tt, first_break).
Proof. vm_compute. reflexivity. Qed.

(** C3, as stated, fails: [reset_all] in the middle of the second study
    round takes the total from 5 back to 0. *)
Lemma reset_all_lowers_total_study_time :
  current_state second_round = studying
  /\ total_study_time second_round = 5
  /\ dispatch ev_reset_all second_round = (inr tt, was_reset_all second_round)
  /\ total_study_time (was_reset_all second_round) = 0
  /\ ~ total_only_increases scenario_config.
Proof.
  repeat split.
  intros H.
  specialize (H second_round ev_reset_all (was_reset_all second_round)
                second_round_reachable (dispatch_reset_all second_round)).
  vm_compute in H. now apply H.
Qed.

Lemma CycleState_eqb_eq a b : CycleState_eqb a b = true <-> a = b.
Proof. destruct a, b; cbn; split; congruence. Qed.

Lemma completes_studying ev s :
  completes ev s = true ->
  exists e, ev = ev_timeout e /\ timer_due (timer s) = true
            /\ current_state s = studying.
Proof.
  destruct ev; cbn; try discriminate. intros H.
  apply andb_true_iff in H as [H1 H2]. apply CycleState_eqb_eq in H2. eauto.
Qed.

Lemma completes_false_timeout e s :
  completes (ev_timeout e) s = false ->
  timer_due (timer s) = true -> current_state s <> studying.
Proof.
  cbn. intros H Hdue Hst. rewrite Hdue, Hst in H. discriminate.
Qed.

(** C3, amended. On every step of a reachable run: [reset_all] sets the
    total to 0; a study round that runs to its end adds exactly its drawn
    duration, which lies in the configured range; every other step
    (pause, resume, [reset_cycle], waiting, the end of a break) leaves
    the total as it was. Hence, with a non-negative [study_time_min], the
    total goes down on no step but [reset_all]. *)
Theorem total_study_time_accounting
    (cfg : Config) (s : Engine) (ev : Event) (s' : Engine) :
  reachable cfg s -> dispatch ev s = (inr tt, s') ->
  (ev = ev_reset_all -> total_study_time s' = 0)
  /\ (completes ev s = true ->
      study_time_min cfg <= current_session_duration s <= study_time_max cfg
      /\ duration (timer s) = Some (current_session_duration s)
      /\ total_study_time s' = total_study_time s + current_session_duration s)
  /\ (ev <> ev_reset_all -> completes ev s = false ->
      total_study_time s' = total_study_time s)
  /\ (ev <> ev_reset_all -> 0 <= study_time_min cfg ->
      total_study_time s <= total_study_time s').
Proof.
  intros Hr Hd. apply reachable_Inv in Hr.
  pose proof (dispatch_step _ _ _ _ _ Hr Hd) as Hstep.
  destruct Hr as [Hc _ _ _ _ _]. subst cfg. clear Hd.
  split; [|split; [|split]].
  - intros ->. inversion Hstep; subst. reflexivity.
  - intros Hcomp. apply completes_studying in Hcomp as (e & -> & Hdue & Hst).
    step_cases Hstep; try congruence. auto.
  - intros Hne Hcomp.
    step_cases Hstep; try congruence; try reflexivity.
    apply completes_false_timeout in Hcomp; auto. contradiction.
  - intros Hne Hmin.
    step_cases Hstep; try congruence; try lia.
Qed.

Lemma total_study_time_accounting_witness :
  total_study_time first_round_due = 0 /\ total_study_time first_break = 5.
Proof.
  destruct (total_study_time_accounting scenario_config first_round_due
              (ev_timeout (at_noon 1)) first_break
              first_round_due_reachable first_break_step)
    as (_ & Hdone & _).
  split; [reflexivity|].
  destruct (Hdone eq_refl) as (_ & _ & ->). reflexivity.
Defined.

(** ** Logging of study rounds *)

Lemma zero_round_due_reachable : reachable zero_config zero_round_due.
Proof.
  apply (after_reachable zero_config [ev_start_or_resume (at_noon 0)]).
  vm_compute. reflexivity.
Qed.

(** C2, as stated, fails: with [study_time_min = study_time_max = 0] the
    round is drawn at 0 s, its timeout fires while studying, the engine
    goes on to the short break, and no row is written. *)
Lemma zero_length_round_is_not_logged :
  current_state zero_round_due = studying
  /\ timer_due (timer zero_round_due) = true
  /\ (exists s', dispatch (ev_timeout (at_noon 1)) zero_round_due = (inr tt, s')
                 /\ current_state s' = short_breaking
                 /\ logger s' = logger zero_round_due)
  /\ ~ completed_round_is_logged zero_config.
Proof.
  split; [reflexivity|]. split; [reflexivity|]. split.
  - eexists. split; [vm_compute; reflexivity|]. split; reflexivity.
  - intros H.
    destruct (H zero_round_due (at_noon 1)
                (snd (dispatch (ev_timeout (at_noon 1)) zero_round_due))
                zero_round_due_reachable eq_refl eq_refl)
      as (row & Hrow).
    + vm_compute. reflexivity.
    + vm_compute in Hrow. discriminate.
Qed.

Lemma app_one_neq {A} (l : list A) (x : A) : l ++ [x] <> l.
Proof.
  intros H. apply (f_equal (@List.length A)) in H.
  rewrite length_app in H. cbn in H. lia.
Qed.

Lemma closeEvent_eq s :
  exists s', closeEvent s = (inr tt, s')
             /\ logger s' = logger s
             /\ total_study_time s' = total_study_time s
             /\ config_total_study_time (config s') = total_study_time s
             /\ current_session_start_time s' = None
             /\ active (timer s') = false.
Proof. eexists. split; [reflexivity|]. cbn. repeat split. Qed.

(** C2, amended. On every call dispatched on a reachable state, raising
    or not: the log gains exactly one row, that of the round, when the
    timeout fires while studying with a positive planned duration and
    the file is writable; in every other case the log is as it was. In
    particular [pause], [reset_cycle], [reset_all] and quitting write no
    row and add nothing to the total ([reset_all] sets it to 0). *)
Theorem study_round_logged_iff_completed
    (cfg : Config) (s : Engine) (ev : Event) (r : exn + unit) (s' : Engine) :
  reachable cfg s -> dispatch ev s = (r, s') ->
  (logs_a_row ev s = true ->
   exists e t0,
     ev = ev_timeout e
     /\ current_session_start_time s = Some t0
     /\ logger s' = logger s ++ [make_row t0 (now e) (current_session_duration s)])
  /\ (logs_a_row ev s = false -> logger s' = logger s)
  /\ ((exists row, logger s' = logger s ++ [row]) <-> logs_a_row ev s = true)
  /\ (ev = ev_pause \/ ev = ev_reset_cycle ->
      total_study_time s' = total_study_time s)
  /\ (ev = ev_reset_all -> total_study_time s' = 0)
  /\ (exists q, closeEvent s = (inr tt, q)
                /\ logger q = logger s
                /\ total_study_time q = total_study_time s).
Proof.
  intros Hr Hd. apply reachable_Inv in Hr.
  pose proof (dispatch_step _ _ _ _ _ Hr Hd) as Hstep.
  destruct Hr as [Hc _ _ _ _ _]. subst cfg. clear Hd.
  assert (Hyes : logs_a_row ev s = true ->
                 exists e t0,
                   ev = ev_timeout e
                   /\ current_session_start_time s = Some t0
                   /\ logger s' = logger s
                        ++ [make_row t0 (now e) (current_session_duration s)]).
  { intros Hlog. destruct ev as [e| | | |ms|e]; try discriminate.
    cbn [logs_a_row] in Hlog.
    apply andb_true_iff in Hlog as [Hlog Hok].
    apply andb_true_iff in Hlog as [Hcomp Hpos].
    apply completes_studying in Hcomp as (e' & [= <-] & Hdue & Hst).
    step_cases Hstep; try congruence.
    all: match goal with
         | Hs : current_session_start_time _ = Some ?t |- _ =>
             exists e, t; rewrite Hs; unfold log_session; rewrite Hpos, Hok
         end.
    all: repeat split. }
  assert (Hno : logs_a_row ev s = false -> logger s' = logger s).
  { intros Hlog.
    step_cases Hstep; try congruence; try reflexivity.
    all: match goal with
         | Hdue : timer_due (timer _) = true, Hst : current_state _ = studying,
           Hs : current_session_start_time _ = Some _ |- _ =>
             rewrite Hdue, Hst in Hlog; rewrite Hs
         end.
    all: unfold log_session; cbn in Hlog.
    all: destruct (0 <? current_session_duration _); [|reflexivity].
    all: destruct (disk_ok _); [discriminate|reflexivity]. }
  split; [exact Hyes|]. split; [exact Hno|]. split; [|split; [|split]].
  - split.
    + intros (row & Hrow). destruct (logs_a_row ev s); [reflexivity|].
      rewrite Hno in Hrow by reflexivity. symmetry in Hrow.
      now apply app_one_neq in Hrow.
    + intros Hlog. destruct (Hyes Hlog) as (e & t0 & _ & _ & Hrow). eauto.
  - intros [-> | ->]; inversion Hstep; subst; reflexivity.
  - intros ->. inversion Hstep; subst; reflexivity.
  - destruct (closeEvent_eq s) as (q & Hq & Hl & Ht & _). eauto.
Qed.

Lemma study_round_logged_iff_completed_witness :
  logger first_round_due = []
  /\ exists row,
       logger first_break = [row]
       /\ (net_duration_minutes row == 8 # 100)%Q
       /\ day_of_week row = "Tuesday"%string.
Proof.
  destruct (study_round_logged_iff_completed scenario_config first_round_due
              (ev_timeout (at_noon 1)) (inr tt) first_break
              first_round_due_reachable first_break_step)
    as (Hyes & _).
  destruct (Hyes eq_refl) as (e & t0 & He & Ht0 & Hrow).
  split; [reflexivity|].
  injection He as <-. injection Ht0 as <-.
  eexists. split; [exact Hrow|]. split; vm_compute; reflexivity.
Defined.

(** ** Resuming from pause *)

Lemma cues_app l1 l2 : cues (l1 ++ l2) = cues l1 ++ cues l2.
Proof.
  induction l1 as [|[t st|t|t m|k] l1 IH]; cbn; rewrite ?IH; reflexivity.
Qed.

Lemma paused_short_break_reachable : reachable scenario_config paused_short_break.
Proof.
  apply (after_reachable scenario_config
           [ev_start_or_resume (at_noon 0); ev_elapse 5000; ev_timeout (at_noon 1);
            ev_elapse 1000; ev_pause]).
  vm_compute. reflexivity.
Qed.

(** C4, as stated, fails: resuming a paused short break plays
    [start_study], not [start_short_break]. *)
Lemma resumed_short_break_plays_start_study :
  current_state paused_short_break = short_breaking
  /\ is_paused paused_short_break = true
  /\ start_or_resume (at_noon 2) paused_short_break
     = (inr tt, resumed paused_short_break)
  /\ cues (emitted (resumed paused_short_break))
     = cues (emitted paused_short_break) ++ [start_study]
  /\ ~ resume_replays_phase_cue scenario_config.
Proof.
  split; [reflexivity|]. split; [reflexivity|].
  assert (Hres : start_or_resume (at_noon 2) paused_short_break
                 = (inr tt, resumed paused_short_break))
    by (now apply start_or_resume_paused).
  split; [exact Hres|]. split; [vm_compute; reflexivity|].
  intros H.
  destruct (H paused_short_break (at_noon 2) (resumed paused_short_break)
              paused_short_break_reachable eq_refl Hres) as (k & Hk & Hcues).
  injection Hk as <-. vm_compute in Hcues. discriminate.
Qed.

(** C4, amended. From any paused state, [start_or_resume] returns, keeps
    the phase, clears the pause flag, and sends out exactly the cue
    [start_study] followed by the status text of the resumed phase,
    whichever phase is resumed; this is the cue of the phase only when
    the resumed phase is studying. *)
Theorem resume_plays_start_study (e : Env) (s : Engine) :
  is_paused s = true ->
  exists s',
    start_or_resume e s = (inr tt, s')
    /\ current_state s' = current_state s
    /\ is_paused s' = false
    /\ emitted s' =
         emitted s
         ++ [play_sound start_study;
             state_changed
               (original_state_text (current_state s) (cycle_count s))
               (current_state s)]
    /\ cues (emitted s') = cues (emitted s) ++ [start_study]
    /\ (phase_cue (current_state s) = Some start_study
        <-> current_state s = studying).
Proof.
  intros Hp. exists (resumed s).
  split; [now apply start_or_resume_paused|].
  split; [reflexivity|]. split; [reflexivity|]. split.
  - cbn. now rewrite <- app_assoc.
  - split.
    + unfold resumed. cbn [emitted]. rewrite !cues_app. cbn.
      now rewrite app_nil_r.
    + destruct (current_state s); cbn; split; congruence.
Qed.

Lemma resume_plays_start_study_witness :
  exists s',
    start_or_resume (at_noon 2) paused_short_break = (inr tt, s')
    /\ current_state s' = short_breaking
    /\ cues (emitted s') = cues (emitted paused_short_break) ++ [start_study].
Proof.
  destruct (resume_plays_start_study (at_noon 2) paused_short_break eq_refl)
    as (s' & Hrun & Hst & _ & _ & Hcues & _).
  exists s'. split; [exact Hrun|]. split; [|exact Hcues].
  rewrite Hst. reflexivity.
Defined.

(** ** The scenario, step by step *)

Lemma _run_study_cycle_fixed e s :
  study_time_min (config s) = study_time_max (config s) ->
  _run_study_cycle e s = _run_study_cycle (calm e) s.
Proof.
  intros Heq.
  assert (Hd : drawn (config s) (calm e) = drawn (config s) e).
  { unfold drawn. rewrite Heq.
    replace (study_time_max (config s) - study_time_max (config s) + 1) with 1
      by lia.
    now rewrite !Z.mod_1_r. }
  destruct (fits_int (drawn (config s) e * 1000)) eqn:Hfit.
  - rewrite (_run_study_cycle_eq e), (_run_study_cycle_eq (calm e));
      try lia; try assumption; [|now rewrite Hd].
    unfold entered_study. now rewrite Hd.
  - rewrite (_run_study_cycle_overflow e), (_run_study_cycle_overflow (calm e));
      try lia; try assumption; [|now rewrite Hd].
    unfold study_not_started. now rewrite Hd.
Qed.

Lemma choose_phase_fixed e s0 :
  study_time_min (config s0) = study_time_max (config s0) ->
  (if long_break_threshold (config s0) <=? current_cycle_study_time s0
   then _run_long_break_cycle s0 else _run_study_cycle e s0)
  = (if long_break_threshold (config s0) <=? current_cycle_study_time s0
     then _run_long_break_cycle s0 else _run_study_cycle (calm e) s0).
Proof.
  intros Heq. destruct (_ <=? _); [reflexivity|].
  now apply _run_study_cycle_fixed.
Qed.

Lemma on_timer_timeout_fixed e s :
  study_time_min (config s) = study_time_max (config s) ->
  on_timer_timeout e s = on_timer_timeout (calm e) s.
Proof.
  intros Heq. destruct (current_state s) eqn:Hst.
  - rewrite !on_timer_timeout_idle by auto. reflexivity.
  - unfold on_timer_timeout, bind, get. rewrite Hst. reflexivity.
  - rewrite !on_timer_timeout_short_breaking by assumption.
    now apply choose_phase_fixed.
  - rewrite !on_timer_timeout_long_breaking by assumption. reflexivity.
  - rewrite !on_timer_timeout_idle by auto. reflexivity.
Qed.

Lemma dispatch_fixed ev s :
  study_time_min (config s) = study_time_max (config s) ->
  dispatch ev s = dispatch (calm_event ev) s.
Proof.
  intros Heq. destruct ev as [e| | | |ms|e]; try reflexivity;
    cbn [dispatch calm_event].
  - destruct (is_paused s) eqn:Hp.
    + rewrite !start_or_resume_paused by assumption. reflexivity.
    + destruct (current_state s) eqn:Hst.
      * rewrite !start_or_resume_stopped by assumption.
        now apply choose_phase_fixed.
      * rewrite !start_or_resume_running by congruence. reflexivity.
      * rewrite !start_or_resume_running by congruence. reflexivity.
      * rewrite !start_or_resume_running by congruence. reflexivity.
      * rewrite !start_or_resume_finished by assumption.
        destruct (_ <=? _); [reflexivity|].
        now apply _run_study_cycle_fixed.
  - destruct (timer_due (timer s)) eqn:Hdue.
    + rewrite !fire_due by assumption. now apply on_timer_timeout_fixed.
    + rewrite !fire_not_due by assumption. reflexivity.
Qed.

Lemma trace_fixed cfg evs : forall s,
  Inv cfg s -> study_time_min cfg = study_time_max cfg ->
  trace evs s = trace (map calm_event evs) s.
Proof.
  induction evs as [|ev evs IH]; intros s HI Heq; [reflexivity|].
  cbn [trace map]. rewrite <- dispatch_fixed by (now rewrite (inv_config _ _ HI)).
  destruct (dispatch ev s) as [[x|[]] s1] eqn:Hd; [reflexivity|].
  f_equal. apply IH; [|assumption]. eapply Inv_dispatch; eauto.
Qed.

(** C1, as stated, fails: the end of the second study round leads to a
    second short break, with the long break only at the end of that
    break. *)
Lemma second_round_ends_in_short_break :
  nth_error scenario_trace 6
    = Some (short_breaking, 2000, 10, 10, [8 # 100; 8 # 100]%Q)
  /\ phases_from stopped scenario_trace
     = [studying; short_breaking; studying; short_breaking; long_breaking;
        long_break_finished]
  /\ phases_from stopped scenario_trace <> claimed_phases.
Proof.
  split; [reflexivity|]. split; [reflexivity|]. discriminate.
Qed.

(** C1, amended. Under study 5 s, short break 2 s, threshold 8 s, long
    break 3 s and a total of 0, whatever the clock and the random source
    give: starting from stopped and letting every timeout fire, the
    engine studies (timer 5000 ms), logs one row of 0.08 minutes and
    enters the short break (2000 ms) with 5 s in the cycle, studies
    again, at the end of the second round logs a second row and enters
    the short break again with 10 s in the cycle, at the end of that
    break (10 >= 8) enters the long break (3000 ms) with the cycle time
    back to 0, and on the next timeout is in long_break_finished; the
    total is 10 from the second round on. *)
Theorem scenario_runs_through_two_short_breaks
    (clock : nat -> datetime) (dice : nat -> Z) :
  trace (scenario_events clock dice) (init scenario_config)
  = [(studying, 5000, 0, 0, []);
     (studying, 5000, 0, 0, []);
     (short_breaking, 2000, 5, 5, [8 # 100]%Q);
     (short_breaking, 2000, 5, 5, [8 # 100]%Q);
     (studying, 5000, 5, 5, [8 # 100]%Q);
     (studying, 5000, 5, 5, [8 # 100]%Q);
     (short_breaking, 2000, 10, 10, [8 # 100; 8 # 100]%Q);
     (short_breaking, 2000, 10, 10, [8 # 100; 8 # 100]%Q);
     (long_breaking, 3000, 0, 10, [8 # 100; 8 # 100]%Q);
     (long_breaking, 3000, 0, 10, [8 # 100; 8 # 100]%Q);
     (long_break_finished, 3000, 0, 10, [8 # 100; 8 # 100]%Q)]
  /\ phases_from stopped (trace (scenario_events clock dice) (init scenario_config))
     = [studying; short_breaking; studying; short_breaking; long_breaking;
        long_break_finished].
Proof.
  rewrite (trace_fixed scenario_config)
    by (apply Inv_init || reflexivity).
  split; vm_compute; reflexivity.
Qed.
(** ** More invariants of the reachable states *)

Lemma last_total_snoc l e :
  last_total (l ++ [e])
  = match e with time_updated v => Some v | _ => last_total l end.
Proof.
  induction l as [|a l IH]; cbn.
  - now destruct e.
  - rewrite IH. now destruct e.
Qed.

Lemma last_status_snoc l e :
  last_status (l ++ [e])
  = match e with
    | state_changed txt st => Some (txt, st)
    | _ => last_status l
    end.
Proof.
  induction l as [|a l IH]; cbn.
  - now destruct e.
  - rewrite IH. now destruct e.
Qed.

Lemma text_studying_not_paused n : text_studying n <> text_paused.
Proof. unfold text_studying, text_paused. cbn. discriminate. Qed.

Lemma original_state_text_not_paused st n : original_state_text st n <> text_paused.
Proof.
  destruct st; cbn; discriminate.
Qed.

Ltac status_shown :=
  eexists; split; [reflexivity|];
  split; intros Habs;
  [ first [ discriminate Habs
          | exfalso; revert Habs; apply text_studying_not_paused
          | exfalso; revert Habs; apply original_state_text_not_paused
          | reflexivity ]
  | first [ discriminate Habs | reflexivity ] ].

Lemma Inv2_init cfg : Inv2 (init cfg).
Proof.
  constructor; cbn; intros; try congruence; try lia; try discriminate.
  status_shown.
Qed.

Lemma timer_due_active t : timer_due t = true -> active t = true.
Proof. unfold timer_due. intros H. now apply andb_true_iff in H. Qed.

(** Brings the facts that follow from the premises of a step into the
    context. *)
Ltac saturate s :=
  repeat match goal with
         | H : timer_due (timer s) = true |- _ => apply timer_due_active in H
         end;
  repeat match goal with
         | Ha : active (timer s) = true, H : active (timer s) = true -> _ |- _ =>
             specialize (H Ha)
         | Hp : is_paused s = true, H : is_paused s = true -> _ |- _ =>
             specialize (H Hp)
         | H : _ /\ _ |- _ => destruct H
         end;
  repeat match goal with
         | Hst : current_state s = _ |- _ => rewrite Hst in *
         end.

Ltac inv2_field :=
  cbn; rewrite ?last_total_snoc, ?last_status_snoc; cbn;
  unfold in_phase, timer_elapse in *; cbn;
  intros;
  repeat match goal with
         | H : _ /\ _ |- _ => destruct H
         | H : (_ <=? _) = true |- _ => apply Z.leb_le in H
         | H : is_paused _ = false |- _ => rewrite H in *
         end;
  first [ assumption | congruence | lia | discriminate
        | status_shown
        | solve [intuition (congruence || lia)]
        | idtac ].

Lemma Inv2_step cfg s ev s' :
  Inv cfg s -> Inv2 s -> step s ev (inr tt) s' -> Inv2 s'.
Proof.
  intros [Hc Hrem Hrun Hpa Hz Hs] [I1 I2 I3 I4 I5 I6 I7 I8 I9 I10] Hstep.
  inversion Hstep; subst; clear Hstep;
    repeat match goal with
           | C : chosen _ _ _ _ |- _ => inversion C; subst; clear C
           end;
    try (constructor; assumption).
  all: saturate s.
  all: constructor; inv2_field.
  all: try (apply effective_interval_le;
            first [ assumption
                  | match goal with
                    | H : fits_int ?x = true |- ?x <= _ =>
                        apply fits_int_iff in H; apply H
                    end ]).
  destruct (active (timer s)) eqn:Ha; cbn in *; [|congruence].
  specialize (Hrem eq_refl). specialize (I9 eq_refl). lia.
Qed.

Lemma reachable_Inv2 cfg s : reachable cfg s -> Inv2 s.
Proof.
  induction 1 as [|s ev s' Hr IH Hd]; [apply Inv2_init|].
  apply reachable_Inv in Hr.
  eapply Inv2_step; eauto. eapply dispatch_step; eauto.
Qed.

Lemma Inv3_init cfg : nonneg_config cfg -> Inv3 (init cfg).
Proof.
  intros (H1 & H2 & H3 & H4). constructor; cbn; unfold in_phase.
  - lia.
  - intros [H|[H|H]]; discriminate.
Qed.

Lemma Inv3_step cfg s ev s' :
  nonneg_config cfg -> Inv cfg s -> Inv3 s -> step s ev (inr tt) s' -> Inv3 s'.
Proof.
  intros (N1 & N2 & N3 & N4) [Hc Hrem Hrun Hpa Hz Hs] [J1 J2] Hstep.
  subst cfg.
  inversion Hstep; subst; clear Hstep;
    repeat match goal with
           | C : chosen _ _ _ _ |- _ => inversion C; subst; clear C
           end;
    try (constructor; assumption).
  all: saturate s.
  all: constructor; cbn; unfold in_phase, timer_elapse in *; cbn.
  all: try lia.
  all: try (intros; right; reflexivity).
  all: try (intros [Hst|[Hst|Hst]]; discriminate Hst).
  all: try (intros _; left; apply Z.leb_le; lia).
  all: try (intros Hph; destruct (J2 Hph) as [Ha|Hp]; [left|right]; auto;
            rewrite Ha; reflexivity).
  all: intros _; left; apply Z.leb_le;
    match goal with
    | H : study_time_min _ <= study_time_max _ |- _ =>
        cbn in H; pose proof (drawn_in_range _ e H)
    end; lia.
Qed.

Lemma reachable_Inv3 cfg s : nonneg_config cfg -> reachable cfg s -> Inv3 s.
Proof.
  intros Hn. induction 1 as [|s ev s' Hr IH Hd]; [now apply Inv3_init|].
  apply reachable_Inv in Hr.
  eapply Inv3_step; eauto. eapply dispatch_step; eauto.
Qed.

(** ** No call fails on durations that are in order *)

Lemma dispatch_fails_on_bad_durations cfg s ev x s' :
  Inv cfg s -> dispatch ev s = (inl x, s') ->
  (x = ValueError /\ study_time_max cfg < study_time_min cfg)
  \/ (x = OverflowError /\ ~ delays_fit cfg).
Proof.
  intros Hr Hd. pose proof (dispatch_step _ _ _ _ _ Hr Hd) as Hstep.
  destruct Hr as [Hc _ _ _ _ _]. subst cfg. clear Hd.
  inversion Hstep; subst;
    repeat match goal with
           | C : chosen _ _ _ _ |- _ => inversion C; subst; clear C
           end;
    cbn in *; auto.
  all: right; split; [reflexivity|]; intros (F1 & F2 & F3 & F4);
    try congruence.
  all: match goal with
       | Hle : study_time_min _ <= study_time_max _,
         Hfit : fits_int (drawn ?c ?e * 1000) = false |- _ =>
           pose proof (drawn_in_range c e Hle) as Hd;
           rewrite (between_fits _ _ _ F1 F2 Hd) in Hfit; discriminate
       end.
Qed.

Lemma dispatch_returns cfg s ev :
  Inv cfg s -> study_time_min cfg <= study_time_max cfg -> delays_fit cfg ->
  exists s', dispatch ev s = (inr tt, s').
Proof.
  intros Hr Hle Hfit. destruct (dispatch ev s) as [[x|[]] s'] eqn:Hd.
  - destruct (dispatch_fails_on_bad_durations _ _ _ _ _ Hr Hd)
      as [[_ Hlt]|[_ Hno]]; [lia|contradiction].
  - now exists s'.
Qed.

(** X1. On a reachable state whose total is a C [int], also with one
    more study round added, a call dispatched raises only [ValueError],
    and then [study_time_max < study_time_min], or [OverflowError], and
    then one of the configured durations, in milliseconds, is no C
    [int]. With a range that is not empty and durations that fit, every
    call returns; in particular the timer's "duration" property is never
    missing when a study round ends. *)
Theorem calls_fail_only_on_bad_durations
    (cfg : Config) (s : Engine) (ev : Event) :
  reachable cfg s -> total_fits cfg s ->
  (forall x s', dispatch ev s = (inl x, s') ->
     (x = ValueError /\ study_time_max cfg < study_time_min cfg)
     \/ (x = OverflowError /\ ~ delays_fit cfg))
  /\ (study_time_min cfg <= study_time_max cfg -> delays_fit cfg ->
      exists s', dispatch ev s = (inr tt, s')).
Proof.
  intros Hr _. apply reachable_Inv in Hr. split.
  - intros x s' Hd. eapply dispatch_fails_on_bad_durations; eauto.
  - intros Hle Hfit. now apply (dispatch_returns cfg).
Qed.

Lemma scenario_delays_fit : delays_fit scenario_config.
Proof. repeat split. Qed.

Lemma calls_fail_only_on_bad_durations_witness :
  exists s', dispatch (ev_timeout (at_noon 4)) second_break_due = (inr tt, s').
Proof.
  destruct (calls_fail_only_on_bad_durations scenario_config second_break_due
              (ev_timeout (at_noon 4)) second_break_due_reachable) as [_ Hok].
  - repeat split.
  - apply Hok; [vm_compute; discriminate | exact scenario_delays_fit].
Defined.

(** ** The changes of phase *)

(** X2. A step of a reachable run that changes the phase makes one of the
    changes of [transition]; the engine is stopped only by a reset; and
    from stopped or after a long break a long break is begun only when
    the threshold is not positive. *)
Theorem phase_changes_follow_transitions
    (cfg : Config) (s : Engine) (ev : Event) (s' : Engine) :
  reachable cfg s -> dispatch ev s = (inr tt, s') ->
  current_state s' <> current_state s ->
  transition (current_state s) (current_state s')
  /\ (current_state s' = stopped -> ev = ev_reset_cycle \/ ev = ev_reset_all)
  /\ (current_state s' = long_breaking ->
      current_state s = stopped \/ current_state s = long_break_finished ->
      long_break_threshold cfg <= 0).
Proof.
  intros Hr Hd Hne. apply reachable_Inv in Hr.
  pose proof (dispatch_step _ _ _ _ _ Hr Hd) as Hstep.
  destruct Hr as [Hc _ _ _ Hz _]. subst cfg. clear Hd.
  step_cases Hstep; try congruence; saturate s; cbn;
    repeat split; intros; auto; try discriminate; try congruence;
    try (rewrite <- Hz; auto; lia);
    try (destruct (current_state s); exact I);
    try (intuition congruence); try lia.
Qed.

Lemma phase_changes_follow_transitions_witness :
  transition (current_state second_break_due) (current_state long_break_begun).
Proof.
  apply (phase_changes_follow_transitions scenario_config second_break_due
           (ev_timeout (at_noon 4)) long_break_begun
           second_break_due_reachable long_break_begun_step).
  discriminate.
Defined.

(** ** The menu against the engine *)

Lemma start_enabled_eq s :
  start_enabled (populate_context_menu s)
  = negb (active (timer s) && negb (is_paused s)).
Proof. reflexivity. Qed.

Lemma pause_enabled_eq s :
  pause_enabled (populate_context_menu s)
  = negb (negb (active (timer s)) || is_paused s).
Proof. reflexivity. Qed.

Lemma in_phase_not_idle st :
  in_phase st -> st <> stopped /\ st <> long_break_finished.
Proof. intros [H|[H|H]]; subst; split; discriminate. Qed.

(** X3. In every reachable state the menu enables exactly one of
    Start/Resume and Pause; Pause is enabled exactly when the phase timer
    runs; the disabled action would change nothing in the engine, and the
    enabled Pause does pause it. *)
Theorem menu_enables_the_effective_action (cfg : Config) (s : Engine) :
  reachable cfg s ->
  start_enabled (populate_context_menu s)
  = negb (pause_enabled (populate_context_menu s))
  /\ pause_enabled (populate_context_menu s) = active (timer s)
  /\ (pause_enabled (populate_context_menu s) = false ->
      pause s = (inr tt, s))
  /\ (pause_enabled (populate_context_menu s) = true ->
      exists s', pause s = (inr tt, s')
                 /\ is_paused s' = true /\ active (timer s') = false
                 /\ current_state s' = current_state s)
  /\ (start_enabled (populate_context_menu s) = false ->
      forall e, start_or_resume e s = (inr tt, s)).
Proof.
  intros Hr. apply reachable_Inv in Hr. destruct Hr as [_ _ Hrun _ _ _].
  rewrite start_enabled_eq, pause_enabled_eq.
  destruct (active (timer s)) eqn:Ha.
  - destruct (Hrun eq_refl) as [Hp Hph]. rewrite Hp.
    cbn [negb andb orb]. repeat split; try discriminate.
    + intros _. exists (paused_from s). split; [now apply pause_active|].
      repeat split.
    + intros _ e. destruct (in_phase_not_idle _ Hph).
      now apply start_or_resume_running.
  - cbn [negb andb orb]. repeat split; try discriminate.
    intros _. now apply pause_inactive.
Qed.

Lemma menu_enables_the_effective_action_witness :
  start_enabled (populate_context_menu paused_short_break) = true
  /\ pause_enabled (populate_context_menu paused_short_break) = false
  /\ pause paused_short_break = (inr tt, paused_short_break).
Proof.
  destruct (menu_enables_the_effective_action scenario_config paused_short_break
              paused_short_break_reachable) as (_ & _ & Hidle & _).
  split; [reflexivity|]. split; [reflexivity|]. apply Hidle. reflexivity.
Defined.

(** X4. With durations that are not negative and, in milliseconds, no
    more than the largest C [int], a range that is not empty, and a
    total that is a C [int], the enabled Start/Resume always gets the
    phase timer running: no reachable state is left without a way on. *)
Theorem enabled_start_gets_a_timer_running
    (cfg : Config) (s : Engine) (e : Env) :
  reachable cfg s -> nonneg_config cfg -> delays_fit cfg ->
  study_time_min cfg <= study_time_max cfg ->
  fits_int (total_study_time s) = true ->
  start_enabled (populate_context_menu s) = true ->
  exists s',
    start_or_resume e s = (inr tt, s')
    /\ active (timer s') = true
    /\ is_paused s' = false
    /\ in_phase (current_state s').
Proof.
  intros Hr Hn Hfit Hle _ Hen.
  pose proof (reachable_Inv3 _ _ Hn Hr) as [_ Halive].
  apply reachable_Inv in Hr. pose proof Hr as [Hc _ Hrun Hpa _ _].
  assert (Hoff : active (timer s) = false).
  { rewrite start_enabled_eq in Hen.
    destruct (active (timer s)) eqn:Ha; [|reflexivity].
    destruct (Hrun eq_refl) as [Hp _]. rewrite Hp in Hen. discriminate. }
  destruct (dispatch_returns cfg s (ev_start_or_resume e) Hr Hle Hfit)
    as (s' & Hd).
  pose proof (dispatch_step _ _ _ _ _ Hr Hd) as Hstep.
  exists s'. split; [exact Hd|]. clear Hd.
  inversion Hstep; subst; clear Hstep;
    repeat match goal with
           | C : chosen _ _ _ _ |- _ => inversion C; subst; clear C
           end;
    cbn; unfold in_phase; auto.
  - destruct (Hpa ltac:(assumption)) as [_ Hph]. auto.
  - exfalso. destruct (Halive ltac:(assumption)); congruence.
Qed.

Lemma enabled_start_gets_a_timer_running_witness :
  exists s',
    start_or_resume (at_noon 2) paused_short_break = (inr tt, s')
    /\ active (timer s') = true
    /\ is_paused s' = false
    /\ in_phase (current_state s').
Proof.
  apply (enabled_start_gets_a_timer_running scenario_config paused_short_break
           (at_noon 2) paused_short_break_reachable).
  - vm_compute. repeat split; discriminate.
  - repeat split.
  - vm_compute. discriminate.
  - reflexivity.
  - reflexivity.
Defined.

(** ** Invariants, stated *)

Ltac saturate_any :=
  repeat match goal with
         | H : timer_due (timer _) = true |- _ => apply timer_due_active in H
         end;
  repeat match goal with
         | Ha : active (timer ?x) = true,
           H : active (timer ?x) = true -> _ |- _ => specialize (H Ha)
         | Hp : is_paused ?x = true, H : is_paused ?x = true -> _ |- _ =>
             specialize (H Hp)
         | H : _ /\ _ |- _ => destruct H
         end;
  repeat match goal with
         | Hst : current_state _ = _ |- _ => rewrite Hst in *
         end.

(** X5. In every reachable state a session start time is held exactly
    while studying, paused or not; the planned duration then is the
    drawn one, kept in the timer's "duration" property and within the
    configured range. *)
Theorem session_held_exactly_while_studying (cfg : Config) (s : Engine) :
  reachable cfg s ->
  (current_session_start_time s <> None <-> current_state s = studying)
  /\ (current_state s = studying ->
      duration (timer s) = Some (current_session_duration s)
      /\ study_time_min cfg <= current_session_duration s <= study_time_max cfg)
  /\ (current_state s <> studying -> current_session_duration s = 0
      \/ current_session_start_time s = None).
Proof.
  intros Hr. pose proof (reachable_Inv2 _ _ Hr) as [I1 _ _ _ _ _ _ _ _ _].
  apply reachable_Inv in Hr. destruct Hr as [_ _ _ _ _ Hs].
  split; [split|split].
  - exact I1.
  - intros Hst. destruct (Hs Hst) as (d & t0 & -> & _). discriminate.
  - intros Hst. destruct (Hs Hst) as (d & t0 & _ & <- & Hd & Hb). auto.
  - intros Hst. right. destruct (current_session_start_time s) eqn:E; auto.
    exfalso. apply Hst, I1. discriminate.
Qed.

Lemma session_held_exactly_while_studying_witness :
  current_session_start_time second_round <> None
  /\ current_session_start_time second_break_due = None.
Proof.
  destruct (session_held_exactly_while_studying scenario_config second_round
              second_round_reachable) as ([_ Hyes] & _).
  destruct (session_held_exactly_while_studying scenario_config second_break_due
              second_break_due_reachable) as (_ & _ & Hno).
  split; [now apply Hyes|].
  destruct (Hno ltac:(discriminate)) as [H|H]; [|exact H]. reflexivity.
Defined.

(** X6. The round counter counts the study rounds begun since the last
    reset: a step of a reachable run that begins a study round puts it
    at the old count plus one after a short break and at 1 from stopped
    or after a long break, and shows that number in the status text; it
    is 0 whenever the engine is stopped, and when a long break is begun
    right after another; no other step changes it. *)
Theorem cycle_count_counts_rounds_begun
    (cfg : Config) (s : Engine) (ev : Event) (s' : Engine) :
  reachable cfg s -> dispatch ev s = (inr tt, s') ->
  (current_state s <> studying -> current_state s' = studying ->
   cycle_count s'
   = (match current_state s with
      | short_breaking => cycle_count s + 1
      | _ => 1
      end)
   /\ last_status (emitted s')
      = Some (text_studying (cycle_count s'), studying))
  /\ (current_state s' = stopped -> cycle_count s' = 0)
  /\ (current_state s = long_break_finished ->
      current_state s' = long_breaking -> cycle_count s' = 0)
  /\ (current_state s' <> stopped ->
      (current_state s = studying \/ current_state s' <> studying) ->
      (current_state s = long_break_finished ->
       current_state s' = long_break_finished) ->
      cycle_count s' = cycle_count s).
Proof.
  intros Hr Hd. pose proof (reachable_Inv2 _ _ Hr) as [_ _ I3 _ _ _ _ _ _ _].
  apply reachable_Inv in Hr.
  pose proof (dispatch_step _ _ _ _ _ Hr Hd) as Hstep.
  destruct Hr as [Hc _ Hrun Hpa _ _]. subst cfg. clear Hd.
  step_cases Hstep; saturate_any; cbn;
    rewrite ?last_status_snoc; cbn;
    repeat split; intros; auto; try discriminate; try congruence;
    try (rewrite I3 by assumption; reflexivity);
    try (specialize (I3 eq_refl); lia);
    try (intuition congruence);
    try (unfold in_phase in *; intuition congruence).
Qed.

Lemma cycle_count_counts_rounds_begun_witness :
  cycle_count first_round_due = 1 /\ cycle_count first_break = 1.
Proof.
  destruct (cycle_count_counts_rounds_begun scenario_config first_round_due
              (ev_timeout (at_noon 1)) first_break
              first_round_due_reachable first_break_step)
    as (_ & _ & _ & Hsame).
  split; [reflexivity|]. rewrite Hsame; [reflexivity|discriminate| |].
  - left. reflexivity.
  - discriminate.
Defined.

(** X7. The long break is never overdue by a full round: in every
    reachable state the study time of the cycle is below the threshold
    while studying, and below the threshold plus [study_time_max] during
    a short break. *)
Theorem long_break_is_never_overdue (cfg : Config) (s : Engine) :
  reachable cfg s ->
  (current_state s = studying ->
   current_cycle_study_time s < long_break_threshold cfg)
  /\ (current_state s = short_breaking ->
      current_cycle_study_time s
      < long_break_threshold cfg + study_time_max cfg)
  /\ (current_state s <> studying -> current_state s <> short_breaking ->
      current_cycle_study_time s = 0).
Proof.
  intros Hr. pose proof (reachable_Inv2 _ _ Hr) as [_ _ _ _ I5 I6 _ _ _ _].
  apply reachable_Inv in Hr. destruct Hr as [Hc _ _ _ Hz _]. subst cfg.
  repeat split; auto.
  intros H1 H2. apply Hz. destruct (current_state s); auto; congruence.
Qed.

Lemma long_break_is_never_overdue_witness :
  current_cycle_study_time second_break_due < 8 + 5.
Proof.
  destruct (long_break_is_never_overdue scenario_config second_break_due
              second_break_due_reachable) as (_ & Hshort & _).
  apply Hshort. reflexivity.
Defined.

(** X8. With durations and a stored total that are not negative, in
    every reachable state the study time of the cycle lies between 0 and
    the total. *)
Theorem cycle_time_within_total (cfg : Config) (s : Engine) :
  reachable cfg s -> nonneg_config cfg ->
  0 <= current_cycle_study_time s <= total_study_time s.
Proof.
  intros Hr Hn. now destruct (reachable_Inv3 _ _ Hn Hr).
Qed.

Lemma scenario_config_nonneg : nonneg_config scenario_config.
Proof. vm_compute. repeat split; discriminate. Qed.

Lemma cycle_time_within_total_witness :
  0 <= current_cycle_study_time second_break_due
    <= total_study_time second_break_due.
Proof.
  apply (cycle_time_within_total scenario_config second_break_due
           second_break_due_reachable).
  vm_compute. repeat split; discriminate.
Defined.

(** X9. With durations and a stored total that are not negative:
    whenever the engine has reached the threshold in its cycle, so that
    the long break comes next, the menu reads "Long Break Available";
    and when the menu counts minutes down, their number is not negative
    unless a study timer is running. *)
Theorem menu_announces_the_long_break (cfg : Config) (s : Engine) :
  reachable cfg s -> nonneg_config cfg ->
  (current_state s <> stopped ->
   long_break_threshold cfg <= current_cycle_study_time s ->
   long_break_line (populate_context_menu s) = Some long_break_available)
  /\ (forall mins,
        long_break_line (populate_context_menu s) = Some (long_break_in mins) ->
        total_study_time s < long_break_threshold cfg
        /\ (current_state s <> studying \/ active (timer s) = false ->
            mins = (long_break_threshold cfg - total_study_time s) / 60
            /\ 0 <= mins)).
Proof.
  intros Hr Hn. pose proof (reachable_Inv3 _ _ Hn Hr) as [[J0 J1] _].
  apply reachable_Inv in Hr. destruct Hr as [Hc _ _ _ _ _]. subst cfg.
  unfold populate_context_menu, isActive. cbn [long_break_line].
  split.
  - intros Hst Hthr.
    destruct (Z.ltb_spec (total_study_time s) (long_break_threshold (config s)));
      [lia|].
    destruct (current_state s); congruence.
  - intros mins Hline.
    destruct (Z.ltb_spec (total_study_time s) (long_break_threshold (config s)));
      [|destruct (current_state s); discriminate].
    split; [assumption|]. intros Hidle.
    assert ((CycleState_eqb (current_state s) studying && active (timer s))%bool
            = false) as Hoff.
    { destruct Hidle as [Hst|Ha]; [|rewrite Ha; apply andb_false_r].
      destruct (current_state s); try reflexivity. congruence. }
    rewrite Hoff in Hline. unfold divmod60 in Hline. cbn [fst] in Hline.
    assert (mins = (long_break_threshold (config s) - total_study_time s) / 60)
      as -> by (destruct (current_state s); congruence).
    split; [reflexivity|]. apply Z.div_pos; lia.
Qed.

Lemma menu_announces_the_long_break_witness :
  long_break_line (populate_context_menu second_break_due)
  = Some long_break_available.
Proof.
  destruct (menu_announces_the_long_break scenario_config second_break_due
              second_break_due_reachable scenario_config_nonneg) as [Hav _].
  apply Hav; [discriminate|]. vm_compute. discriminate.
Defined.

(** ** What the listeners were last told *)

(** X10. In every reachable state whose total is a C [int] (below 2^31
    seconds), the total last received with [time_updated] is the
    engine's total: the total-time label, which shows what
    [update_total_time] makes of it, is not out of date. *)
Theorem label_total_is_current (cfg : Config) (s : Engine) :
  reachable cfg s -> fits_int (total_study_time s) = true ->
  last_total (emitted s) = Some (total_study_time s).
Proof.
  intros Hr Hfit. destruct (reachable_Inv2 _ _ Hr) as [_ _ _ _ _ _ I7 _ _ _].
  rewrite I7. f_equal. now apply wrap_int_fits.
Qed.

Lemma label_total_is_current_witness :
  last_total (emitted second_break_due) = Some 10.
Proof.
  apply (label_total_is_current scenario_config second_break_due
           second_break_due_reachable).
  reflexivity.
Defined.

(** X11. In every reachable state the status last sent with
    [state_changed] carries the engine's current phase, and its text is
    the "Paused" text exactly when the engine is paused. *)
Theorem status_sent_is_current (cfg : Config) (s : Engine) :
  reachable cfg s ->
  exists txt,
    last_status (emitted s) = Some (txt, current_state s)
    /\ (txt = text_paused <-> is_paused s = true).
Proof. intros Hr. now destruct (reachable_Inv2 _ _ Hr). Qed.

Lemma status_sent_is_current_witness :
  last_status (emitted paused_short_break) = Some (text_paused, short_breaking).
Proof.
  destruct (status_sent_is_current scenario_config paused_short_break
              paused_short_break_reachable) as (txt & Hlast & Hp).
  rewrite Hlast. f_equal. f_equal. now apply Hp.
Defined.

(** ** The delay of a resumed timer *)

(** X12. In every reachable state the time left on a running timer, and
    the time kept by a pause, lie between 0 and the largest C [int]: the
    delay that [_resume] passes to [timer.start] is never negative and
    its conversion never fails, so that resuming returns with the timer
    running on exactly the time kept. *)
Theorem paused_time_is_a_valid_delay (cfg : Config) (s : Engine) :
  reachable cfg s ->
  (active (timer s) = true -> 0 <= remaining (timer s) <= INT_MAX)
  /\ (is_paused s = true ->
      0 <= time_remaining_on_pause s <= INT_MAX
      /\ fits_int (time_remaining_on_pause s) = true
      /\ forall e,
           exists s',
             start_or_resume e s = (inr tt, s')
             /\ active (timer s') = true
             /\ interval (timer s') = time_remaining_on_pause s).
Proof.
  intros Hr. destruct (reachable_Inv2 _ _ Hr) as [_ _ _ _ _ _ _ _ I9 I10].
  apply reachable_Inv in Hr. destruct Hr as [_ Hrem _ Hpa _ _].
  split.
  - intros Ha. split; [now apply Hrem | now apply I9].
  - intros Hp. destruct (Hpa Hp) as [Hlo _]. specialize (I10 Hp).
    split; [split; assumption|]. split.
    + apply fits_int_iff. unfold INT_MIN, INT_MAX in *. lia.
    + intros e. exists (resumed s).
      split; [now apply start_or_resume_paused|]. cbn.
      split; [reflexivity|]. now apply effective_interval_id.
Qed.

Lemma paused_time_is_a_valid_delay_witness :
  0 <= time_remaining_on_pause paused_short_break <= INT_MAX
  /\ fits_int (time_remaining_on_pause paused_short_break) = true.
Proof.
  destruct (paused_time_is_a_valid_delay scenario_config paused_short_break
              paused_short_break_reachable) as (_ & Hp).
  destruct (Hp eq_refl) as (Hb & Hfit & _). split; assumption.
Defined.

(** ** Quitting and starting again *)

(** [closeEvent] on any engine returns, stops the timer, drops the
    session in progress and stores the total in the configuration,
    leaving the other keys and the log alone; an engine constructed from
    that configuration starts stopped with the same total. *)
Theorem total_survives_quit_and_restart (s : Engine) :
  exists q,
    closeEvent s = (inr tt, q)
    /\ active (timer q) = false
    /\ current_session_start_time q = None
    /\ logger q = logger s
    /\ config q
       = mk_config (study_time_min (config s)) (study_time_max (config s))
           (short_break_duration (config s)) (long_break_threshold (config s))
           (long_break_duration (config s)) (total_study_time s)
    /\ total_study_time (init (config q)) = total_study_time s
    /\ current_state (init (config q)) = stopped
    /\ current_cycle_study_time (init (config q)) = 0.
Proof. eexists. split; [reflexivity|]. cbn. repeat split. Qed.

(** ** The texts of the labels *)

(** X13. For every total, the minutes shown by the total-time label lie
    in 0..59, and hours and minutes together are the total rounded down
    to the minute. *)
Theorem total_focus_label_rounds_down (total_seconds : Z) :
  0 <= total_focus_minutes total_seconds < 60
  /\ total_focus_hours total_seconds * 3600
     + total_focus_minutes total_seconds * 60
     <= total_seconds
     < total_focus_hours total_seconds * 3600
       + total_focus_minutes total_seconds * 60 + 60.
Proof.
  unfold total_focus_minutes, total_focus_hours.
  pose proof (Z.mod_pos_bound (total_seconds / 60) 60 ltac:(lia)) as Hm.
  pose proof (Z.div_mod total_seconds 60 ltac:(lia)) as H60.
  pose proof (Z.mod_pos_bound total_seconds 60 ltac:(lia)) as Hs.
  pose proof (Z.div_mod (total_seconds / 60) 60 ltac:(lia)) as Hh.
  assert (total_seconds / 3600 = total_seconds / 60 / 60) as ->
    by (rewrite Z.div_div by lia; reflexivity).
  lia.
Qed.

(** X14. In every reachable state the info line of the menu is present
    exactly while a phase is timed or paused; its seconds lie in 0..59,
    its minutes are not negative, and together they are the whole
    seconds of the time left on the timer, or kept by the pause. *)
Theorem menu_info_shows_time_left (cfg : Config) (s : Engine) :
  reachable cfg s ->
  (info_remaining (populate_context_menu s) <> None
   <-> active (timer s) = true \/ is_paused s = true)
  /\ (forall mins secs,
        info_remaining (populate_context_menu s) = Some (mins, secs) ->
        0 <= secs < 60 /\ 0 <= mins
        /\ mins * 60 + secs
           = (if is_paused s then time_remaining_on_pause s
              else remaining (timer s)) / 1000).
Proof.
  intros Hr.
  apply reachable_Inv in Hr. destruct Hr as [_ Hrem Hrun Hpa _ _].
  unfold populate_context_menu, isActive, remainingTime, divmod60.
  cbn [info_remaining].
  destruct (active (timer s)) eqn:Ha; [destruct (Hrun eq_refl) as [Hp _]|];
    destruct (is_paused s) eqn:Hp'; try congruence; cbn [orb].
  - split; [split; [auto|discriminate]|].
    intros mins secs [= <- <-]. specialize (Hrem eq_refl).
    pose proof (Z.mod_pos_bound (remaining (timer s) / 1000) 60 ltac:(lia)).
    pose proof (Z.div_mod (remaining (timer s) / 1000) 60 ltac:(lia)).
    assert (0 <= remaining (timer s) / 1000) by (apply Z.div_pos; lia).
    assert (0 <= remaining (timer s) / 1000 / 60) by (apply Z.div_pos; lia).
    repeat split; lia.
  - split; [split; [auto|discriminate]|].
    intros mins secs [= <- <-]. destruct (Hpa eq_refl) as [Hr1 _].
    pose proof (Z.mod_pos_bound (time_remaining_on_pause s / 1000) 60 ltac:(lia)).
    pose proof (Z.div_mod (time_remaining_on_pause s / 1000) 60 ltac:(lia)).
    assert (0 <= time_remaining_on_pause s / 1000) by (apply Z.div_pos; lia).
    assert (0 <= time_remaining_on_pause s / 1000 / 60) by (apply Z.div_pos; lia).
    repeat split; lia.
  - split; [|discriminate].
    split; [congruence|]. intros [H|H]; discriminate.
Qed.

Lemma menu_info_shows_time_left_witness :
  info_remaining (populate_context_menu paused_short_break) = Some (0, 1)
  /\ 0 * 60 + 1 = time_remaining_on_pause paused_short_break / 1000.
Proof.
  destruct (menu_info_shows_time_left scenario_config paused_short_break
              paused_short_break_reachable) as (_ & Hinfo).
  split; [reflexivity|].
  destruct (Hinfo 0 1 eq_refl) as (_ & _ & Hb). exact Hb.
Defined.

(** ** A reset followed by a start *)

(** X15. From every reachable state whose total is a C [int], whatever
    the phase and paused or not, with a range of durations that is not
    empty, starts at 0 or above and ends, in milliseconds, at no more
    than the largest C [int], and with a positive threshold:
    [reset_cycle] followed by
    [start_or_resume] begins study round 1 of a fresh cycle with a newly
    drawn duration, the total and the log being those of before; after
    [reset_all] the same holds with a total of 0. *)
Theorem reset_then_start_begins_round_one
    (cfg : Config) (s : Engine) (e : Env) :
  reachable cfg s -> fits_int (total_study_time s) = true ->
  0 <= study_time_min cfg -> study_time_min cfg <= study_time_max cfg ->
  study_time_max cfg * 1000 <= INT_MAX ->
  0 < long_break_threshold cfg ->
  exists s1 s2,
    run [ev_reset_cycle; ev_start_or_resume e] s = (inr tt, s1)
    /\ run [ev_reset_all; ev_start_or_resume e] s = (inr tt, s2)
    /\ current_state s1 = studying /\ current_state s2 = studying
    /\ cycle_count s1 = 1 /\ cycle_count s2 = 1
    /\ current_cycle_study_time s1 = 0 /\ current_cycle_study_time s2 = 0
    /\ is_paused s1 = false /\ is_paused s2 = false
    /\ current_session_duration s1 = drawn cfg e
    /\ current_session_duration s2 = drawn cfg e
    /\ active (timer s1) = true /\ active (timer s2) = true
    /\ interval (timer s1) = drawn cfg e * 1000
    /\ interval (timer s2) = drawn cfg e * 1000
    /\ total_study_time s1 = total_study_time s /\ total_study_time s2 = 0
    /\ logger s1 = logger s /\ logger s2 = logger s.
Proof.
  intros Hr _ Hmin Hle Hmax Hthr.
  apply reachable_Inv in Hr. destruct Hr as [Hc _ _ _ _ _].
  subst cfg.
  pose proof (drawn_in_range (config s) e Hle) as Hd.
  assert (Hfit : fits_int (drawn (config s) e * 1000) = true)
    by (apply fits_int_iff; unfold INT_MIN, INT_MAX in *; lia).
  exists (entered_study e (was_reset s)), (entered_study e (was_reset_all s)).
  split; [|split].
  - cbn [run]. unfold bind at 1. rewrite dispatch_reset_cycle.
    change (run [ev_start_or_resume e] (was_reset s)
            = (inr tt, entered_study e (was_reset s))).
    rewrite run_single. cbn [dispatch].
    rewrite start_or_resume_stopped by reflexivity.
    change (current_cycle_study_time (was_reset s)) with 0.
    change (config (was_reset s)) with (config s).
    destruct (Z.leb_spec (long_break_threshold (config s)) 0); [lia|].
    now apply _run_study_cycle_eq.
  - cbn [run]. unfold bind at 1. rewrite dispatch_reset_all.
    change (run [ev_start_or_resume e] (was_reset_all s)
            = (inr tt, entered_study e (was_reset_all s))).
    rewrite run_single. cbn [dispatch].
    rewrite start_or_resume_stopped by reflexivity.
    change (current_cycle_study_time (was_reset_all s)) with 0.
    change (config (was_reset_all s)) with (config s).
    destruct (Z.leb_spec (long_break_threshold (config s)) 0); [lia|].
    now apply _run_study_cycle_eq.
  - cbn. repeat split; apply effective_interval_id; lia.
Qed.

Lemma reset_then_start_begins_round_one_witness :
  exists s1,
    run [ev_reset_cycle; ev_start_or_resume (at_noon 9)] paused_short_break
    = (inr tt, s1)
    /\ current_state s1 = studying /\ cycle_count s1 = 1
    /\ total_study_time s1 = 5.
Proof.
  destruct (reset_then_start_begins_round_one scenario_config paused_short_break
              (at_noon 9) paused_short_break_reachable)
    as (s1 & s2 & H1 & _ & Hst & _ & Hc & _ & _ & _ & _ & _ & _ & _ & _ & _
        & _ & _ & Ht & _).
  - reflexivity.
  - vm_compute. discriminate.
  - vm_compute. discriminate.
  - vm_compute. discriminate.
  - reflexivity.
  - exists s1. rewrite Ht. repeat split; assumption.
Defined.

(** ** The configuration file *)

Lemma dict_get_set_same {V} (d : list (string * V)) k v :
  dict_get (dict_set d k v) k = Some v.
Proof.
  induction d as [|[k0 v0] d IH]; cbn.
  - now rewrite String.eqb_refl.
  - destruct (String.eqb_spec k0 k) as [->|Hne]; cbn.
    + now rewrite String.eqb_refl.
    + destruct (String.eqb_spec k0 k); [contradiction|exact IH].
Qed.

Lemma dict_get_set_other {V} (d : list (string * V)) k k' v :
  k <> k' -> dict_get (dict_set d k v) k' = dict_get d k'.
Proof.
  intros Hne. induction d as [|[k0 v0] d IH]; cbn.
  - destruct (String.eqb_spec k k'); [contradiction|reflexivity].
  - destruct (String.eqb_spec k0 k) as [->|Hk]; cbn.
    + destruct (String.eqb_spec k k'); [contradiction|reflexivity].
    + now rewrite IH.
Qed.

Lemma dict_set_missing {V} (d : list (string * V)) k v :
  dict_get d k = None -> dict_set d k v = d ++ [(k, v)].
Proof.
  induction d as [|[k0 v0] d IH]; cbn; [reflexivity|].
  destruct (String.eqb_spec k0 k); [discriminate|].
  intros H. now rewrite IH.
Qed.

Lemma dict_has_get {V} (d : list (string * V)) k :
  dict_has d k = true <-> dict_get d k <> None.
Proof. unfold dict_has. destruct (dict_get d k); split; congruence. Qed.

(** The keys of [defaults] that [d] lacks, paired with their defaults, in
    the order of [defaults] and without repetition. *)
Lemma back_fill_dict defaults : forall d updated,
  exists added,
    back_fill defaults (JDict d) updated
    = inr (JDict (d ++ added),
           (updated || negb (forallb (dict_has d) (map fst defaults)))%bool)
    /\ (forall k,
          dict_get (d ++ added) k
          = match dict_get d k with
            | Some v => Some v
            | None => dict_get defaults k
            end)
    /\ (forall k v, In (k, v) added -> dict_get d k = None).
Proof.
  induction defaults as [|[k v] rest IH]; intros d updated.
  - exists []. cbn. rewrite app_nil_r, orb_false_r.
    split; [reflexivity|]. split; [|contradiction].
    intros k. now destruct (dict_get d k).
  - cbn [back_fill py_contains py_setitem map fst forallb].
    destruct (dict_has d k) eqn:Hhas.
    + destruct (IH d updated) as (added & Hrun & Hget & Hnew).
      exists added. split; [exact Hrun|]. split; [|exact Hnew].
      intros k0. rewrite Hget. destruct (dict_get d k0) eqn:E; [reflexivity|].
      cbn. destruct (String.eqb_spec k k0) as [->|]; [|reflexivity].
      apply dict_has_get in Hhas. contradiction.
    + assert (Hk : dict_get d k = None).
      { unfold dict_has in Hhas. now destruct (dict_get d k). }
      rewrite (dict_set_missing d k v Hk).
      destruct (IH (d ++ [(k, v)]) true) as (added & Hrun & Hget & Hnew).
      exists ((k, v) :: added).
      replace (d ++ (k, v) :: added) with ((d ++ [(k, v)]) ++ added)
        by (now rewrite <- app_assoc).
      split; [|split].
      * rewrite Hrun. cbn. now rewrite orb_true_r.
      * intros k0. rewrite Hget. rewrite <- (dict_set_missing d k v Hk).
        destruct (String.eqb_spec k k0) as [->|Hne].
        -- rewrite dict_get_set_same, Hk. cbn. now rewrite String.eqb_refl.
        -- rewrite dict_get_set_other by assumption. cbn.
           destruct (String.eqb_spec k k0); [contradiction|reflexivity].
      * intros k0 v0 [[= <- <-]|Hin]; [exact Hk|].
        specialize (Hnew k0 v0 Hin).
        rewrite <- (dict_set_missing d k v Hk) in Hnew.
        destruct (String.eqb_spec k k0) as [->|Hne].
        -- now rewrite dict_get_set_same in Hnew.
        -- now rewrite dict_get_set_other in Hnew.
Qed.

Lemma forallb_has_all {V W} (defaults : list (string * V)) (d : list (string * W)) :
  forallb (dict_has d) (map fst defaults) = true <->
  (forall k, dict_has defaults k = true -> dict_has d k = true).
Proof.
  induction defaults as [|[k v] rest IH]; cbn.
  - split; [|reflexivity]. intros _ k. unfold dict_has. cbn. discriminate.
  - rewrite andb_true_iff, IH. split.
    + intros [Hk Hrest] k0. unfold dict_has at 1. cbn.
      destruct (String.eqb_spec k k0) as [->|]; [auto|]. apply Hrest.
    + intros H. split.
      * apply H. unfold dict_has. cbn. now rewrite String.eqb_refl.
      * intros k0 Hk0. apply H. unfold dict_has. cbn.
        destruct (String.eqb_spec k k0); [reflexivity|exact Hk0].
Qed.

Lemma back_fill_complete defaults d updated :
  has_all_keys defaults d ->
  back_fill defaults (JDict d) updated = inr (JDict d, updated).
Proof.
  intros Hall. revert updated.
  induction defaults as [|[k v] rest IH]; intros updated; [reflexivity|].
  cbn [back_fill py_contains].
  rewrite (Hall k) by (unfold dict_has; cbn; now rewrite String.eqb_refl).
  apply IH. intros k0 Hk0. apply Hall. unfold dict_has. cbn.
  destruct (String.eqb_spec k k0); [reflexivity|exact Hk0].
Qed.

(** X16. When [config.json] holds a JSON object, [load_or_create_config]
    returns that object with the missing default keys added at the end:
    every key the user wrote keeps its value and its place, whether a
    default exists for it or not and also when the value is a table with
    keys missing (the fill is not recursive); every default key is
    there; the file is rewritten exactly when a key was missing. *)
Theorem load_back_fills_missing_keys
    (w : write_outcome) (d : list (string * json)) :
  exists added,
    load_or_create_config w (Some (parsed (JDict d)))
    = (inr (JDict (d ++ added)),
       if forallb (dict_has d) (map fst DEFAULT_CONFIG_items)
       then Some (parsed (JDict d))
       else write_config w (JDict (d ++ added)) (Some (parsed (JDict d))))
    /\ (forall k v, dict_get d k = Some v -> dict_get (d ++ added) k = Some v)
    /\ (forall k, dict_get d k = None ->
          dict_get (d ++ added) k = dict_get DEFAULT_CONFIG_items k)
    /\ has_all_keys DEFAULT_CONFIG_items (d ++ added)
    /\ (forallb (dict_has d) (map fst DEFAULT_CONFIG_items) = true ->
        added = []).
Proof.
  destruct (back_fill_dict DEFAULT_CONFIG_items d false)
    as (added & Hrun & Hget & Hnew).
  exists added. unfold load_or_create_config. rewrite Hrun.
  cbn [orb]. split; [|split; [|split; [|split]]].
  - unfold save_config. now destruct (forallb _ _).
  - intros k v Hk. now rewrite Hget, Hk.
  - intros k Hk. now rewrite Hget, Hk.
  - intros k Hk. apply dict_has_get. rewrite Hget.
    destruct (dict_get d k); [discriminate|]. now apply dict_has_get.
  - intros Hall. destruct added as [|[k v] added]; [reflexivity|].
    exfalso. specialize (Hnew k v (or_introl eq_refl)).
    apply (proj1 (forallb_has_all DEFAULT_CONFIG_items d)) with (k := k) in Hall.
    + apply dict_has_get in Hall. contradiction.
    + apply dict_has_get. specialize (Hget k). rewrite Hnew in Hget.
      rewrite <- Hget. clear. induction d as [|[k0 v0] d IH]; cbn.
      * rewrite String.eqb_refl. discriminate.
      * destruct (String.eqb k0 k); [discriminate|exact IH].
Qed.

(** On a value that is no object, the loop changes nothing: it fails, or
    it finds every default key in the value and returns it as it is. *)
Lemma back_fill_not_object defaults j : forall updated,
  is_object j = false ->
  (exists err, back_fill defaults j updated = inl err)
  \/ (back_fill defaults j updated = inr (j, updated)
      /\ Forall (fun kv => py_contains j (fst kv) = inr true) defaults).
Proof.
  induction defaults as [|[k v] rest IH]; intros updated Hj.
  - right. split; [reflexivity|constructor].
  - cbn [back_fill]. destruct (py_contains j k) as [err|[|]] eqn:Hc.
    + left. eauto.
    + destruct (IH updated Hj) as [Hfail|[Hrun Hall]]; [now left|].
      right. split; [exact Hrun|]. constructor; assumption.
    + left. destruct j; try discriminate; cbn; eauto.
Qed.

Lemma default_items_complete :
  has_all_keys DEFAULT_CONFIG_items DEFAULT_CONFIG_items.
Proof. intros k Hk. exact Hk. Qed.

(** The part of the merge that later proofs use. *)
Lemma load_back_fills_lemma (w : write_outcome) (d : list (string * json)) :
  exists added,
    load_or_create_config w (Some (parsed (JDict d)))
    = (inr (JDict (d ++ added)),
       if forallb (dict_has d) (map fst DEFAULT_CONFIG_items)
       then Some (parsed (JDict d))
       else write_config w (JDict (d ++ added)) (Some (parsed (JDict d))))
    /\ has_all_keys DEFAULT_CONFIG_items (d ++ added)
    /\ (forallb (dict_has d) (map fst DEFAULT_CONFIG_items) = true ->
        added = []).
Proof.
  destruct (back_fill_dict DEFAULT_CONFIG_items d false)
    as (added & Hrun & Hget & Hnew).
  exists added. unfold load_or_create_config. rewrite Hrun.
  cbn [orb]. split; [|split].
  - unfold save_config. now destruct (forallb _ _).
  - intros k Hk. apply dict_has_get. rewrite Hget.
    destruct (dict_get d k); [discriminate|]. now apply dict_has_get.
  - intros Hall. destruct added as [|[k v] added]; [reflexivity|].
    exfalso. specialize (Hnew k v (or_introl eq_refl)).
    apply (proj1 (forallb_has_all DEFAULT_CONFIG_items d)) with (k := k) in Hall.
    + apply dict_has_get in Hall. contradiction.
    + apply dict_has_get. specialize (Hget k). rewrite Hnew in Hget.
      rewrite <- Hget. clear. induction d as [|[k0 v0] d IH]; cbn.
      * rewrite String.eqb_refl. discriminate.
      * destruct (String.eqb k0 k); [discriminate|exact IH].
Qed.

(** X17. After a load whose write, if any, went through, the file is at
    rest: loading again returns the same document and leaves the file
    as it is, however the write would go. *)
Theorem load_is_stable_after_a_good_write
    (f : config_file) (w : write_outcome) :
  load_or_create_config w (snd (load_or_create_config written f))
  = (fst (load_or_create_config written f),
     snd (load_or_create_config written f)).
Proof.
  destruct f as [[|x|j]|].
  - reflexivity.
  - reflexivity.
  - destruct (is_object j) eqn:Hobj.
    + destruct j as [| | | | | |d]; try discriminate.
      destruct (load_back_fills_lemma written d)
        as (added & Hload & Hall & Hnone).
      rewrite Hload. cbn [fst snd].
      destruct (forallb (dict_has d) (map fst DEFAULT_CONFIG_items)) eqn:Hfb.
      * rewrite (Hnone eq_refl), app_nil_r in *.
        unfold load_or_create_config.
        now rewrite (back_fill_complete _ _ _ Hall).
      * cbn [write_config]. unfold load_or_create_config.
        now rewrite (back_fill_complete _ _ _ Hall).
    + unfold load_or_create_config at 2 3 4.
      destruct (back_fill_not_object DEFAULT_CONFIG_items j false Hobj)
        as [[err Hfail]|[Hrun _]].
      * rewrite Hfail. cbn [fst snd]. unfold load_or_create_config.
        now rewrite Hfail.
      * rewrite Hrun. cbn [fst snd]. unfold load_or_create_config.
        now rewrite Hrun.
  - cbn [load_or_create_config write_config fst snd].
    unfold load_or_create_config.
    now rewrite (back_fill_complete _ _ _ default_items_complete).
Qed.

(** X18. A [config.json] whose text [json.load] rejects, or that holds
    [null], a boolean or a number, gives the defaults and is left
    untouched, so it is never repaired. A list or a string is left
    untouched too; it gives the defaults unless every default key occurs
    in it, in which case the list or string itself is returned as the
    configuration. A file whose reading raises another exception (bytes
    that are not UTF-8, a file that cannot be opened) makes
    [load_or_create_config] raise it, the file being left untouched. *)
Theorem load_falls_back_to_defaults (w : write_outcome) :
  load_or_create_config w (Some unparsable)
  = (inr (JDict DEFAULT_CONFIG_items), Some unparsable)
  /\ (forall x,
        load_or_create_config w (Some (unreadable x))
        = (inl x, Some (unreadable x)))
  /\ (forall j,
        is_object j = false ->
        snd (load_or_create_config w (Some (parsed j))) = Some (parsed j)
        /\ (fst (load_or_create_config w (Some (parsed j)))
            = inr (JDict DEFAULT_CONFIG_items)
            \/ fst (load_or_create_config w (Some (parsed j))) = inr j
               /\ Forall (fun kv => py_contains j (fst kv) = inr true)
                    DEFAULT_CONFIG_items))
  /\ (forall j,
        match j with
        | JNull | JBool _ | JInt _ | JFloat _ => True
        | _ => False
        end ->
        load_or_create_config w (Some (parsed j))
        = (inr (JDict DEFAULT_CONFIG_items), Some (parsed j))).
Proof.
  split; [reflexivity|]. split; [reflexivity|]. split.
  - intros j Hobj. unfold load_or_create_config.
    destruct (back_fill_not_object DEFAULT_CONFIG_items j false Hobj)
      as [[err Hfail]|[Hrun Hall]].
    + rewrite Hfail. cbn. auto.
    + rewrite Hrun. cbn. auto.
  - intros j Hj. destruct j; try contradiction; reflexivity.
Qed.

Lemma has_all_keys_set defaults (d : list (string * json)) k v :
  has_all_keys defaults d -> has_all_keys defaults (dict_set d k v).
Proof.
  intros Hall k0 Hk0. apply dict_has_get.
  destruct (String.eqb_spec k k0) as [->|Hne].
  - rewrite dict_get_set_same. discriminate.
  - rewrite dict_get_set_other by assumption. now apply dict_has_get, Hall.
Qed.

Lemma get_int_set_other (d : list (string * json)) k k' v :
  k <> k' -> get_int (dict_set d k v) k' = get_int d k'.
Proof. intros Hne. unfold get_int. now rewrite dict_get_set_other. Qed.

(** X19. The total survives quitting and starting again through the
    file: when the dictionary in use holds every default key and its
    numeric keys hold integers, storing the total in it and saving, as
    [closeEvent] does, leaves a file from which the next load returns
    that very dictionary, without writing; the engine built from it has
    the same durations and threshold and starts with the total that was
    stored. *)
Theorem total_round_trips_through_config_file
    (d : list (string * json)) (c : Config) (total : Z)
    (f : config_file) (w : write_outcome) :
  has_all_keys DEFAULT_CONFIG_items d ->
  config_of_items d = Some c ->
  load_or_create_config w (snd (save_total written d total f))
  = (inr (JDict (fst (save_total written d total f))),
     snd (save_total written d total f))
  /\ config_of_items (fst (save_total written d total f))
     = Some (mk_config (study_time_min c) (study_time_max c)
               (short_break_duration c) (long_break_threshold c)
               (long_break_duration c) total)
  /\ (forall c', config_of_items (fst (save_total written d total f)) = Some c' ->
        total_study_time (init c') = total
        /\ current_state (init c') = stopped).
Proof.
  intros Hall Hc. cbn [save_total save_config write_config fst snd].
  assert (Hcfg : config_of_items (dict_set d "total_study_time" (JInt total))
                 = Some (mk_config (study_time_min c) (study_time_max c)
                           (short_break_duration c) (long_break_threshold c)
                           (long_break_duration c) total)).
  { unfold config_of_items in *.
    rewrite !get_int_set_other by discriminate.
    rewrite dict_get_set_same.
    destruct (get_int d "study_time_min"); [|discriminate].
    destruct (get_int d "study_time_max"); [|discriminate].
    destruct (get_int d "short_break_duration"); [|discriminate].
    destruct (get_int d "long_break_threshold"); [|discriminate].
    destruct (get_int d "long_break_duration"); [|discriminate].
    destruct (dict_get d "total_study_time") as [[]|]; try discriminate;
      injection Hc as <-; reflexivity. }
  split; [|split].
  - unfold load_or_create_config.
    now rewrite (back_fill_complete _ _ _ (has_all_keys_set _ _ _ _ Hall)).
  - exact Hcfg.
  - intros c' Hc'. rewrite Hcfg in Hc'. injection Hc' as <-. split; reflexivity.
Qed.

Lemma total_round_trips_through_config_file_witness :
  config_of_items (fst (save_total written DEFAULT_CONFIG_items 77 None))
  = Some (mk_config 180 300 10 5400 1200 77).
Proof.
  destruct (total_round_trips_through_config_file DEFAULT_CONFIG_items
              DEFAULT_CONFIG 77 None refused default_items_complete eq_refl)
    as (_ & Hcfg & _).
  exact Hcfg.
Defined.

(** ** The log file *)

Lemma logger_do_existing c l :
  exists rows, logger_do c (Some l) = Some (l ++ map row_line rows)
               /\ (List.length rows <= 1)%nat.
Proof.
  destruct c as [ok|ok st en n]; cbn.
  - exists []. rewrite app_nil_r. split; [reflexivity|cbn; lia].
  - unfold log_session_file.
    destruct st as [s|], en as [e|];
      try (exists []; rewrite app_nil_r; split; [reflexivity|cbn; lia]).
    destruct (0 <? n);
      [|exists []; rewrite app_nil_r; split; [reflexivity|cbn; lia]].
    destruct ok;
      try (exists []; rewrite app_nil_r; split; [reflexivity|cbn; lia]).
    exists [make_row s e n]. split; [reflexivity|cbn; lia].
Qed.

Lemma logger_run_existing cs : forall l,
  exists rows, logger_run cs (Some l) = Some (l ++ map row_line rows)
               /\ (List.length rows <= List.length cs)%nat.
Proof.
  induction cs as [|c cs IH]; intros l.
  - exists []. cbn. rewrite app_nil_r. split; [reflexivity|lia].
  - cbn [logger_run fold_left].
    destruct (logger_do_existing c l) as (r1 & -> & Hlen1).
    destruct (IH (l ++ map row_line r1)) as (r2 & Hrun & Hlen2).
    exists (r1 ++ r2). unfold logger_run in Hrun. rewrite Hrun.
    rewrite map_app, app_assoc, length_app. split; [reflexivity|cbn; lia].
Qed.


(** X21. A log file created by the logger at start holds the header once,
    on top, and rows below it, whatever calls follow. When the creation
    fails, the file gets no header later on: a file that was opened and
    left empty is there from then on and holds rows only; a file that
    could not be opened is created by the first append that succeeds,
    and holds rows only as well. *)
Theorem log_file_header_comes_from_initialize :
  (forall cs,
     exists rows,
       logger_run (call_initialize line_written :: cs) None
       = Some (header_line :: map row_line rows))
  /\ (forall cs,
        exists rows,
          logger_run (call_initialize not_written :: cs) None
          = Some (map row_line rows))
  /\ (forall cs o s e n,
        0 < n ->
        exists rows,
          logger_run (call_initialize not_opened
                        :: call_log_session line_written (Some s) (Some e) n
                        :: call_initialize o :: cs) None
          = Some (row_line (make_row s e n) :: map row_line rows)).
Proof.
  split; [|split].
  - intros cs. cbn [logger_run fold_left logger_do _initialize_file].
    destruct (logger_run_existing cs [header_line]) as (rows & Hrun & _).
    exists rows. exact Hrun.
  - intros cs. cbn [logger_run fold_left logger_do _initialize_file].
    destruct (logger_run_existing cs []) as (rows & Hrun & _).
    exists rows. exact Hrun.
  - intros cs o s e n Hn.
    cbn [logger_run fold_left logger_do _initialize_file log_session_file
           file_lines app].
    destruct (Z.ltb_spec 0 n); [|lia].
    cbn [_initialize_file].
    destruct (logger_run_existing cs [row_line (make_row s e n)])
      as (rows & Hrun & _).
    exists rows. exact Hrun.
Qed.

Lemma rows_of_app l1 l2 : rows_of (l1 ++ l2) = rows_of l1 ++ rows_of l2.
Proof.
  induction l1 as [|[|r] l1 IH]; cbn; [reflexivity|exact IH|now rewrite IH].
Qed.

(** The rows of the file follow the store of the engine's logger:
    after any call, the rows of the file are what [log_session] makes of
    the rows before, [_initialize_file] adding none. *)
Theorem log_file_rows_follow_log_session (c : logger_call) (f : log_file) :
  rows_of (file_lines (logger_do c f))
  = match c with
    | call_initialize _ => rows_of (file_lines f)
    | call_log_session o st en n =>
        log_session (succeeded o) st en n (rows_of (file_lines f))
    end.
Proof.
  destruct c as [o|o st en n]; cbn [logger_do].
  - destruct f as [l|]; [reflexivity|]. cbn. now destruct o.
  - unfold log_session_file, log_session.
    destruct st as [s|], en as [e|]; try reflexivity.
    destruct (0 <? n); [|reflexivity].
    destruct o; cbn [succeeded file_lines]; try reflexivity.
    now rewrite rows_of_app.
Qed.

(** ** The sound table *)

Lemma collect_sound_paths_succeeds fs folder table : forall acc,
  (exists paths, collect_sound_paths fs folder table acc = inr paths)
  <-> Forall (fun kv => isfile fs (path_join folder (snd kv)) = true) table.
Proof.
  induction table as [|[k f] table IH]; intros acc; cbn [collect_sound_paths].
  - split; [constructor|eauto].
  - destruct (isfile fs (path_join folder f)) eqn:Hf.
    + rewrite IH. split.
      * intros H. constructor; assumption.
      * intros H. now inversion H.
    + split.
      * intros [paths H]. discriminate.
      * intros H. inversion H; subst. cbn in *. congruence.
Qed.

Lemma collect_sound_paths_sound fs folder table : forall acc paths,
  collect_sound_paths fs folder table acc = inr paths ->
  (forall k p, dict_get acc k = Some p -> isfile fs p = true) ->
  (forall k p, dict_get paths k = Some p -> isfile fs p = true)
  /\ (forall k, dict_get acc k = None -> dict_get table k = None ->
        dict_get paths k = None).
Proof.
  induction table as [|[k f] table IH]; intros acc paths Hrun Hacc;
    cbn [collect_sound_paths] in Hrun.
  - injection Hrun as <-. split; [exact Hacc|auto].
  - destruct (isfile fs (path_join folder f)) eqn:Hf; [|discriminate].
    destruct (IH _ _ Hrun) as [Hfiles Hnone].
    + intros k0 p. destruct (String.eqb_spec k k0) as [->|Hne].
      * rewrite dict_get_set_same. now intros [= <-].
      * rewrite dict_get_set_other by assumption. apply Hacc.
    + split; [exact Hfiles|].
      intros k0 Hk0 Htab. cbn in Htab.
      destruct (String.eqb_spec k k0) as [->|Hne]; [discriminate|].
      apply Hnone; [|exact Htab]. now rewrite dict_get_set_other.
Qed.

(** X22. [_validate_and_get_sound_paths] fails with the folder when the
    music folder is no directory, whatever the files; it returns a table
    exactly when the folder is a directory and every file of the sound
    table exists in it. With the table it returns, [_play_sound] hands
    the mixer only paths of existing files, and nothing for a cue that
    the configured table does not name. *)
Theorem sound_paths_are_validated
    (fs : FileSystem) (base music_folder : string)
    (sound_files : list (string * string)) :
  (isdir fs (path_join base music_folder) = false ->
   _validate_and_get_sound_paths fs base music_folder sound_files
   = inl (folder_not_found (path_join base music_folder)))
  /\ ((exists paths,
         _validate_and_get_sound_paths fs base music_folder sound_files
         = inr paths)
      <-> isdir fs (path_join base music_folder) = true
          /\ Forall (fun kv =>
                       isfile fs (path_join (path_join base music_folder) (snd kv))
                       = true) sound_files)
  /\ (forall paths,
        _validate_and_get_sound_paths fs base music_folder sound_files
        = inr paths ->
        forall cue,
          (forall p, sound_to_play paths cue = Some p -> isfile fs p = true)
          /\ (dict_get sound_files (sound_key_name cue) = None ->
              sound_to_play paths cue = None)).
Proof.
  unfold _validate_and_get_sound_paths.
  destruct (isdir fs (path_join base music_folder)) eqn:Hdir.
  - split; [discriminate|]. split.
    + rewrite collect_sound_paths_succeeds. intuition.
    + intros paths Hrun cue.
      destruct (collect_sound_paths_sound _ _ _ _ _ Hrun) as [Hfiles Hnone].
      { intros k p. discriminate. }
      unfold sound_to_play. split.
      * intros p. destruct (dict_get paths (sound_key_name cue)) eqn:Hget;
          [|discriminate].
        destruct (String.eqb s ""); [discriminate|]. intros [= <-]. eauto.
      * intros Htab. now rewrite Hnone.
  - split; [reflexivity|]. split.
    + split; [intros [paths H]; discriminate|intros [H _]; discriminate].
    + intros paths H. discriminate.
Qed.

(** ** The cues and the phases *)

(** X23. On a step of a reachable run that changes the phase, the engine
    asks for exactly one cue, the one of the phase entered
    ([end_long_break] when the long break ends), and for none when it is
    reset to stopped; on a step that keeps the phase it asks for
    [start_study] when it resumes from pause, and for nothing else. *)
Theorem cue_follows_the_phase_entered
    (cfg : Config) (s : Engine) (ev : Event) (s' : Engine) :
  reachable cfg s -> dispatch ev s = (inr tt, s') ->
  (current_state s' <> current_state s ->
   cues (emitted s')
   = cues (emitted s)
     ++ match current_state s' with
        | studying => [start_study]
        | short_breaking => [start_short_break]
        | long_breaking => [start_long_break]
        | long_break_finished => [end_long_break]
        | stopped => []
        end)
  /\ (current_state s' = current_state s ->
      cues (emitted s')
      = cues (emitted s)
        ++ (if (is_paused s && negb (is_paused s'))%bool
            then [start_study] else [])).
Proof.
  intros Hr Hd. apply reachable_Inv in Hr.
  pose proof (dispatch_step _ _ _ _ _ Hr Hd) as Hstep.
  destruct Hr as [Hc _ Hrun Hpa _ _]. subst cfg. clear Hd.
  step_cases Hstep; saturate_any; cbn;
    rewrite ?cues_app; cbn; rewrite ?app_nil_r;
    split; intros; try congruence; try reflexivity;
    repeat match goal with
           | H : is_paused _ = _ |- _ => rewrite H
           end; cbn; rewrite ?app_nil_r; try reflexivity;
    try (unfold in_phase in *; intuition congruence).
  all: destruct (is_paused _) eqn:E; cbn; rewrite ?app_nil_r; try reflexivity.
  all: exfalso; unfold in_phase in *;
    first [ destruct (Hpa E) as [_ [Hx|[Hx|Hx]]]
          | destruct (Hpa eq_refl) as [_ [Hx|[Hx|Hx]]] ]; congruence.
Qed.

Lemma cue_follows_the_phase_entered_witness :
  cues (emitted long_break_begun)
  = cues (emitted second_break_due) ++ [start_long_break].
Proof.
  destruct (cue_follows_the_phase_entered scenario_config second_break_due
              (ev_timeout (at_noon 4)) long_break_begun
              second_break_due_reachable long_break_begun_step) as [Hin _].
  apply Hin. discriminate.
Defined.

(** ** The minutes written to the log *)

Lemma round_half_even_unique (q : Q) (z : Z) :
  (Qabs (q - inject_Z z) < 1 # 2)%Q -> round_half_even q = z.
Proof.
  intros Hz. pose proof (round_half_even_close q) as Hr.
  apply Qabs_Qle_condition in Hr. apply Qabs_Qlt_condition in Hz.
  set (r := round_half_even q) in *.
  assert (H1 : (inject_Z r < inject_Z (z + 1))%Q).
  { rewrite inject_Z_plus. change (inject_Z 1) with 1%Q. lra. }
  assert (H2 : (inject_Z z < inject_Z (r + 1))%Q).
  { rewrite inject_Z_plus. change (inject_Z 1) with 1%Q. lra. }
  rewrite <- Zlt_Qlt in H1, H2. lia.
Qed.

Lemma minutes_in_hundredths (n : Z) :
  round_half_even (inject_Z n / 60 * 100) = (10 * n + 3) / 6.
Proof.
  apply round_half_even_unique.
  set (h := (10 * n + 3) / 6).
  pose proof (Z.div_mod (10 * n + 3) 6 ltac:(lia)) as Hdm.
  pose proof (Z.mod_pos_bound (10 * n + 3) 6 ltac:(lia)) as Hm.
  fold h in Hdm.
  assert (Hlo : 6 * h < 10 * n + 3) by lia.
  assert (Hhi : 10 * n < 6 * h + 3) by lia.
  rewrite Zlt_Qlt in Hlo, Hhi.
  rewrite inject_Z_plus, !inject_Z_mult in Hlo.
  rewrite inject_Z_plus, !inject_Z_mult in Hhi.
  change (inject_Z 6) with 6%Q in *. change (inject_Z 3) with 3%Q in *.
  change (inject_Z 10) with 10%Q in *.
  apply Qabs_Qlt_condition.
  unfold Qdiv. change (/ 60)%Q with (1 # 60)%Q. lra.
Qed.

(** X24. The minutes of a row are the seconds divided by 60 and rounded
    to the nearest hundredth, which is never a tie: for [n] seconds the
    row holds [(10 n + 3) / 6] hundredths, the division rounding down.
    They grow with the seconds, and a row that is logged (its duration
    is positive) never shows less than 0.02 minutes. *)
Theorem logged_minutes_in_hundredths (st en : datetime) (n : Z) :
  net_duration_minutes (make_row st en n)
  = (inject_Z ((10 * n + 3) / 6) / 100)%Q
  /\ (forall m, n <= m -> (10 * n + 3) / 6 <= (10 * m + 3) / 6)
  /\ (0 < n -> 2 <= (10 * n + 3) / 6)
  /\ 6 * ((10 * n + 3) / 6) - 3 < 10 * n < 6 * ((10 * n + 3) / 6) + 3.
Proof.
  split; [|split; [|split]].
  - unfold make_row, py_round2. cbn [net_duration_minutes].
    now rewrite minutes_in_hundredths.
  - intros m Hm. apply Z.div_le_mono; lia.
  - intros Hn. apply Z.div_le_lower_bound; lia.
  - pose proof (Z.div_mod (10 * n + 3) 6 ltac:(lia)).
    pose proof (Z.mod_pos_bound (10 * n + 3) 6 ltac:(lia)). lia.
Qed.
